(** * sphinxcontrib-drawio: the export cache and the renderer invocation

    A shallow embedding of [sphinxcontrib/drawio.py]: the headless decision
    ([is_headless]), the export routine ([drawio_export]) with its cache key,
    cache look-up, renderer argument vector and error messages, and the
    start-up hook ([on_config_inited]).

    Python values are embedded as follows.
    - [str] is [string] (a sequence of bytes; [hash_key.encode()] is the
      identity on it).
    - [int] is [Z]; [str(int)] is stdpp's [pretty].
    - The [options] dict of a directive is a [gmap string pyval].
    - The file system, the process environment and the platform are fields of
      an explicit [world] that every effectful function threads.
    - Exceptions are the [Raise] results of a state-and-exception monad. *)

From stdpp Require Import base option list gmap strings pretty.
From Stdlib Require Import ZArith Ascii String Lia.

Open Scope Z_scope.

(** ** Strings *)

Module Str.

(** [c in s] for a single character. *)
Fixpoint contains (c : ascii) (s : string) : bool :=
  match s with
  | EmptyString => false
  | String a s' => if decide (a = c) then true else contains c s'
  end.

(** [sep.join(l)] *)
Fixpoint join (sep : string) (l : list string) : string :=
  match l with
  | [] => ""
  | [x] => x
  | x :: rest => x +:+ sep +:+ join sep rest
  end.

(** [s.split(sep)] for a one-character separator: the pieces between the
    separators, in order (never an empty list). *)
Fixpoint split (sep : ascii) (s : string) : list string :=
  match s with
  | EmptyString => [""]
  | String a s' =>
      if decide (a = sep) then "" :: split sep s'
      else match split sep s' with
           | [] => [String a ""]
           | p :: ps => String a p :: ps
           end
  end.

(** [s.rfind(c)]: the index of the last occurrence of [c], if any. *)
Fixpoint rfind (c : ascii) (s : string) : option nat :=
  match s with
  | EmptyString => None
  | String a s' =>
      match rfind c s' with
      | Some i => Some (S i)
      | None => if decide (a = c) then Some 0%nat else None
      end
  end.

(** [s[:n]] and [s[n:]] *)
Fixpoint take (n : nat) (s : string) : string :=
  match n, s with
  | S n', String a s' => String a (take n' s')
  | _, _ => ""
  end.

Fixpoint drop (n : nat) (s : string) : string :=
  match n, s with
  | S n', String _ s' => drop n' s'
  | _, _ => s
  end.

(** The lowercase hexadecimal digit of [x mod 16]. *)
Definition hex_digit (x : Z) : ascii :=
  nth (Z.to_nat (x mod 16)) (list_ascii_of_string "0123456789abcdef") "0"%char.

(** [s.startswith(c)] for a single character. *)
Definition starts_with (c : ascii) (s : string) : bool :=
  match s with
  | String a _ => bool_decide (a = c)
  | EmptyString => false
  end.

End Str.

(** ** Python values held by directive options and configuration values *)

Inductive pyval :=
  | PNone
  | PBool (b : bool)
  | PInt (n : Z)
  | PStr (s : string).

#[global] Instance pyval_eq_dec : EqDecision pyval.
Proof. solve_decision. Defined.

(** Truth value of an object, as tested by [if v:], [v or w]. *)
Definition truthy (v : pyval) : bool :=
  match v with
  | PNone => false
  | PBool b => b
  | PInt n => negb (n =? 0)
  | PStr s => negb (bool_decide (s = ""))
  end.

(** [str(v)] *)
Definition py_str (v : pyval) : string :=
  match v with
  | PNone => "None"
  | PBool true => "True"
  | PBool false => "False"
  | PInt n => pretty n
  | PStr s => s
  end.

(** [d.get(k)] and [d.get(k, dflt)] *)
Definition dict_get (d : gmap string pyval) (k : string) : pyval :=
  default PNone (d !! k).

Definition dict_get_or (d : gmap string pyval) (k : string) (dflt : pyval) : pyval :=
  default dflt (d !! k).

(** ** Floats of the form [n / 100]

    [drawio_export] only ever builds a float by dividing an [int] by [100],
    prints it with [str] and reads it back with [float].  Python's [/] on
    integers rounds the exact quotient to the nearest double and [str] prints
    the shortest decimal that reads back as that double.  For
    [|n| < 10^15] the quotient has at most 15 significant decimal digits, so
    that shortest decimal is the exact decimal expansion of [n / 100] and
    distinct [n] give distinct doubles.  The float [n / 100] is therefore
    represented by the integer [n] of hundredths; [float_str] is [str] of it.
    Outside that range the printed text is not modelled (see
    [scale_modelled]). *)

Definition digit_char (d : Z) : string := pretty (d mod 10).

(** The text after the decimal point, for a count of hundredths below 100:
    one digit when the last one would be a zero, two otherwise. *)
Definition frac_str (frac : Z) : string :=
  if frac mod 10 =? 0 then digit_char (frac / 10)
  else digit_char (frac / 10) +:+ digit_char frac.

Definition float_str (hundredths : Z) : string :=
  let a := Z.abs hundredths in
  (if hundredths <? 0 then "-" else "") +:+
  pretty (a / 100) +:+ "." +:+ frac_str (a mod 100).


(** ** SHA-1 ([hashlib.sha1], FIPS 180-4) over byte strings *)

Module SHA1.

Definition mask32 (x : Z) : Z := x mod 2 ^ 32.

Definition rotl (n x : Z) : Z :=
  mask32 (Z.lor (Z.shiftl x n) (Z.shiftr x (32 - n))).

Definition bytes_of (s : string) : list Z :=
  (fun c => Z.of_N (N_of_ascii c)) <$> list_ascii_of_string s.

(** The length in bits as eight big-endian bytes. *)
Definition be64 (x : Z) : list Z :=
  (fun i => Z.shiftr x (8 * (7 - Z.of_nat i)) mod 256) <$> seq 0 8.

(** The message, the byte 0x80, zeros up to 56 modulo 64, the bit length. *)
Definition pad (msg : list Z) : list Z :=
  let len := Z.of_nat (List.length msg) in
  msg ++ [128] ++ replicate (Z.to_nat ((55 - len) mod 64)) 0 ++ be64 (8 * len).

Fixpoint words (fuel : nat) (bs : list Z) : list Z :=
  match fuel, bs with
  | S fuel', b0 :: b1 :: b2 :: b3 :: rest =>
      (b0 * 2 ^ 24 + b1 * 2 ^ 16 + b2 * 2 ^ 8 + b3) :: words fuel' rest
  | _, _ => []
  end.

Fixpoint blocks (fuel : nat) (ws : list Z) : list (list Z) :=
  match fuel, ws with
  | S fuel', _ :: _ => firstn 16 ws :: blocks fuel' (skipn 16 ws)
  | _, _ => []
  end.

(** The message schedule: [w] holds the words 0..t-1, most recent first. *)
Fixpoint schedule (n : nat) (w : list Z) : list Z :=
  match n with
  | O => w
  | S n' =>
      let x := Z.lxor (Z.lxor (nth 2 w 0) (nth 7 w 0))
                      (Z.lxor (nth 13 w 0) (nth 15 w 0)) in
      schedule n' (rotl 1 x :: w)
  end.

Definition f (t : nat) (b c d : Z) : Z :=
  if (t <? 20)%nat then Z.lor (Z.land b c) (Z.land (Z.lxor b (2 ^ 32 - 1)) d)
  else if (t <? 40)%nat then Z.lxor (Z.lxor b c) d
  else if (t <? 60)%nat then Z.lor (Z.lor (Z.land b c) (Z.land b d)) (Z.land c d)
  else Z.lxor (Z.lxor b c) d.

Definition k (t : nat) : Z :=
  if (t <? 20)%nat then 0x5A827999
  else if (t <? 40)%nat then 0x6ED9EBA1
  else if (t <? 60)%nat then 0x8F1BBCDC
  else 0xCA62C1D6.

Definition state : Type := Z * Z * Z * Z * Z.

Definition round (st : state) (tw : nat * Z) : state :=
  let '(a, b, c, d, e) := st in
  let '(t, w) := tw in
  (mask32 (rotl 5 a + f t b c d + e + k t + w), a, rotl 30 b, c, d).

Definition compress (h : state) (block : list Z) : state :=
  let w := rev (schedule 64 (rev block)) in
  let '(a, b, c, d, e) := foldl round h (zip (seq 0 80) w) in
  let '(h0, h1, h2, h3, h4) := h in
  (mask32 (h0 + a), mask32 (h1 + b), mask32 (h2 + c), mask32 (h3 + d),
   mask32 (h4 + e)).

Definition init : state :=
  (0x67452301, 0xEFCDAB89, 0x98BADCFE, 0x10325476, 0xC3D2E1F0).

Definition hex32 (x : Z) : string :=
  string_of_list_ascii
    ((fun i => Str.hex_digit (Z.shiftr x (4 * (7 - Z.of_nat i)))) <$> seq 0 8).

(** [sha1(s.encode()).hexdigest()] *)
Definition hexdigest (s : string) : string :=
  let bs := pad (bytes_of s) in
  let n := List.length bs in
  let '(h0, h1, h2, h3, h4) := foldl compress init (blocks n (words n bs)) in
  hex32 h0 +:+ hex32 h1 +:+ hex32 h2 +:+ hex32 h3 +:+ hex32 h4.

End SHA1.

(** ** Exceptions and results *)

Inductive exn :=
  | DrawIOError (msg : string)
  | ValueError (msg : string)
  | TypeError (msg : string)
  | FileNotFoundError (msg : string)
  | OSError (msg : string).

Inductive result (A : Type) :=
  | Ok (a : A)
  | Raise (e : exn).
Arguments Ok {A} a.
Arguments Raise {A} e.

#[global] Instance exn_eq_dec : EqDecision exn.
Proof. solve_decision. Defined.

#[global] Instance result_eq_dec `{EqDecision A} : EqDecision (result A).
Proof. solve_decision. Defined.

(** [repr] of a [bytes] object, which is what [str.format] inserts for the
    captured output of a process: [b'...'] with backslash escapes. *)
Module Bytes.

Definition quote (s : string) : ascii :=
  if Str.contains "'" s && negb (Str.contains "034" s) then "034"%char
  else "'"%char.

Definition escape_byte (q c : ascii) : string :=
  if bool_decide (c = q) || bool_decide (c = "\"%char) then String "\" (String c "")
  else if bool_decide (c = "009"%char) then "\t"
  else if bool_decide (c = "010"%char) then "\n"
  else if bool_decide (c = "013"%char) then "\r"
  else
    let n := Z.of_N (N_of_ascii c) in
    if (n <? 32) || (127 <=? n)
    then String "\" (String "x" (String (Str.hex_digit (n / 16))
                                        (String (Str.hex_digit n) "")))
    else String c "".

Fixpoint escape (q : ascii) (s : string) : string :=
  match s with
  | EmptyString => ""
  | String c s' => escape_byte q c +:+ escape q s'
  end.

Definition repr (s : string) : string :=
  let q := quote s in
  String "b" (String q (escape q s +:+ String q "")).

End Bytes.

(** ** Paths ([pathlib], POSIX flavour; error texts as CPython 3.11 words them) *)

Module Pathlib.

Record path := { root : string; names : list string }.

#[global] Instance path_eq_dec : EqDecision path.
Proof. solve_decision. Defined.

#[global] Instance path_countable : Countable path :=
  inj_countable' (fun p => (root p, names p))
                 (fun rn => {| root := rn.1; names := rn.2 |})
                 (fun p => match p with Build_path _ _ => eq_refl end).

(** The root of a path text: ["//"] for exactly two leading slashes, ["/"]
    for any other positive number of them. *)
Definition parse_root (s : string) : string :=
  match s with
  | String "/" (String "/" (String "/" _)) => "/"
  | String "/" (String "/" _) => "//"
  | String "/" _ => "/"
  | _ => ""
  end.

(** [Path(s)]: empty components and ["."] components are dropped. *)
Definition Path (s : string) : path :=
  {| root := parse_root s;
     names := filter (fun x => x <> "" /\ x <> ".") (Str.split "/" s) |}.

(** [str(p)] *)
Definition path_str (p : path) : string :=
  match names p with
  | [] => if bool_decide (root p = "") then "." else root p
  | _ => root p +:+ Str.join "/" (names p)
  end.

(** [p / q] *)
Definition joinpath (p q : path) : path :=
  if bool_decide (root q = "") then {| root := root p; names := names p ++ names q |}
  else q.

(** [l[len(pre):]] when [pre] is a prefix of [l]. *)
Fixpoint strip_prefix (pre l : list string) : option (list string) :=
  match pre, l with
  | [], _ => Some l
  | x :: pre', y :: l' => if decide (x = y) then strip_prefix pre' l' else None
  | _ :: _, [] => None
  end.

(** [p.relative_to(other)]: [ValueError] unless [other] is an ancestor of [p]
    (or [p] itself). *)
Definition relative_to (p other : path) : result path :=
  match (if decide (root p = root other) then strip_prefix (names other) (names p)
         else None) with
  | Some rest => Ok {| root := ""; names := rest |}
  | None =>
      Raise (ValueError ("'" +:+ path_str p +:+ "' is not in the subpath of '"
                             +:+ path_str other +:+ "' OR one path is relative "
                             +:+ "and the other is absolute."))
  end.

(** [p.name], [p.suffix] and [p.stem] *)
Definition name (p : path) : string := List.last (names p) "".

Definition suffix_index (nm : string) : option nat :=
  match Str.rfind "." nm with
  | Some i =>
      if bool_decide (0 < i)%nat && bool_decide (i < String.length nm - 1)%nat
      then Some i else None
  | None => None
  end.

Definition suffix (p : path) : string :=
  match suffix_index (name p) with
  | Some i => Str.drop i (name p)
  | None => ""
  end.

Definition stem (p : path) : string :=
  match suffix_index (name p) with
  | Some i => Str.take i (name p)
  | None => name p
  end.

(** [p.with_suffix(sfx)] *)
Definition with_suffix (p : path) (sfx : string) : result path :=
  if Str.contains "/" sfx then Raise (ValueError ("Invalid suffix '" +:+ sfx +:+ "'"))
  else if (negb (bool_decide (sfx = "")) && negb (Str.starts_with "." sfx))
          || bool_decide (sfx = ".")
  then Raise (ValueError ("Invalid suffix '" +:+ sfx +:+ "'"))
  else if bool_decide (name p = "")
  then Raise (ValueError ("PosixPath('" +:+ path_str p +:+ "') has an empty name"))
  else
    let new_name :=
      if bool_decide (suffix p = "") then name p +:+ sfx
      else Str.take (String.length (name p) - String.length (suffix p)) (name p) +:+ sfx in
    Ok {| root := root p; names := removelast (names p) ++ [new_name] |}.

End Pathlib.

Abbreviation path := Pathlib.path.
Abbreviation Path := Pathlib.Path.
Infix "//" := Pathlib.joinpath (at level 40, left associativity).

(** ** The world outside the program *)

(** What [os.stat] reports of a file: [st_mtime] is the modification time as
    the number [stat] returns, in some fixed unit; only its order matters. *)
Record stat_result := { st_mtime : Z; st_isdir : bool }.

(** What running a command to completion did: it could not be started
    ([OSError], with its text), or it exited with a status, its captured
    output and the file system it left behind. *)
Inductive run_outcome :=
  | LaunchFailed (exc : string)
  | Exited (returncode : Z) (stdout stderr : string)
           (files_after : gmap path stat_result).

(** What [subprocess.Popen] did: failed to start, or started a process with
    a pid, a [poll()] result and the output [communicate()] collects. *)
Inductive popen_outcome :=
  | PopenFailed (exc : string)
  | PopenStarted (pid : Z) (poll : option Z) (stdout stderr : string).

Record world := {
  system : string;                       (* platform.system() *)
  environ : gmap string string;          (* os.environ *)
  files : gmap path stat_result;         (* the file system *)
  now : Z;                               (* the clock *)
  exec : list string -> gmap string string -> gmap path stat_result -> run_outcome;
  popen : list string -> popen_outcome;
  spawned : list (list string * gmap string string);  (* subprocess.run calls *)
  started : list (list string);          (* subprocess.Popen calls *)
  log : list string;                     (* logger.info lines *)
  xvfb_pid : option Z                    (* config.xvfb_pid *)
}.

Definition set_files (fs : gmap path stat_result) (w : world) : world :=
  {| system := system w; environ := environ w; files := fs; now := now w;
     exec := exec w; popen := popen w; spawned := spawned w;
     started := started w; log := log w; xvfb_pid := xvfb_pid w |}.

Definition add_spawned (c : list string * gmap string string) (w : world) : world :=
  {| system := system w; environ := environ w; files := files w; now := now w;
     exec := exec w; popen := popen w; spawned := c :: spawned w;
     started := started w; log := log w; xvfb_pid := xvfb_pid w |}.

Definition add_started (c : list string) (w : world) : world :=
  {| system := system w; environ := environ w; files := files w; now := now w;
     exec := exec w; popen := popen w; spawned := spawned w;
     started := c :: started w; log := log w; xvfb_pid := xvfb_pid w |}.

Definition add_log (l : string) (w : world) : world :=
  {| system := system w; environ := environ w; files := files w; now := now w;
     exec := exec w; popen := popen w; spawned := spawned w;
     started := started w; log := l :: log w; xvfb_pid := xvfb_pid w |}.

Definition set_xvfb_pid (pid : Z) (w : world) : world :=
  {| system := system w; environ := environ w; files := files w; now := now w;
     exec := exec w; popen := popen w; spawned := spawned w;
     started := started w; log := log w; xvfb_pid := Some pid |}.

(** ** The state-and-exception monad *)

Definition M (A : Type) : Type := world -> result A * world.

Definition ret {A} (a : A) : M A := fun w => (Ok a, w).
Definition raise {A} (e : exn) : M A := fun w => (Raise e, w).
Definition bind {A B} (c : M A) (k : A -> M B) : M B :=
  fun w => match c w with
           | (Ok a, w') => k a w'
           | (Raise e, w') => (Raise e, w')
           end.
Definition lift {A} (r : result A) : M A := fun w => (r, w).
Definition gets {A} (f : world -> A) : M A := fun w => (Ok (f w), w).
Definition modify (f : world -> world) : M unit := fun w => (Ok tt, f w).

Notation "x <-- c ;; k" := (bind c (fun x => k))
  (at level 100, c at next level, right associativity).
Notation "c ;;; k" := (bind c (fun _ => k))
  (at level 100, right associativity).

(** ** File-system and process primitives *)

(** [p.exists()] *)
Definition path_exists (p : path) : M bool :=
  gets (fun w => bool_decide (is_Some (files w !! p))).

(** [p.stat().st_mtime]; [FileNotFoundError] when there is no such file. *)
Definition stat_mtime (p : path) : M Z :=
  fun w => match files w !! p with
           | Some st => (Ok (st_mtime st), w)
           | None => (Raise (FileNotFoundError (Pathlib.path_str p)), w)
           end.

(** The directories [os.makedirs] goes through: every proper ancestor below
    the root, then the path itself. *)
Definition ancestors (p : path) : list path :=
  (fun k => {| Pathlib.root := Pathlib.root p;
               Pathlib.names := take k (Pathlib.names p) |})
    <$> seq 1 (List.length (Pathlib.names p)).

Definition mkdir_if_missing (t : Z) (fs : gmap path stat_result) (d : path)
  : gmap path stat_result :=
  match fs !! d with
  | Some _ => fs
  | None => <[d := {| st_mtime := t; st_isdir := true |}]> fs
  end.

(** [sphinx.util.ensuredir(p)]: create the directory and its missing parents;
    nothing happens to what exists already.  Failures of the operating system
    (permissions, a file in the way) are not modelled. *)
Definition ensuredir (p : path) : M unit :=
  modify (fun w => set_files (foldl (mkdir_if_missing (now w)) (files w) (ancestors p)) w).

(** [os.getenv(k)] *)
Definition getenv (k : string) : M pyval :=
  gets (fun w => match environ w !! k with Some v => PStr v | None => PNone end).

(** [subprocess.run(args, stdout=PIPE, stderr=PIPE, env=env)]: the call is
    recorded and the process, if it ran, leaves its file system behind. *)
Definition subprocess_run (args : list string) (env : gmap string string)
  : M run_outcome :=
  fun w =>
    let o := exec w args env (files w) in
    let w' := add_spawned (args, env) w in
    (Ok o, match o with
           | Exited _ _ _ fs => set_files fs w'
           | LaunchFailed _ => w'
           end).

(** [logger.info(msg)] *)
Definition logger_info (msg : string) : M unit := modify (add_log msg).

(** ** The program: constants and configuration *)

Definition nl : string := String "010" "".

Definition VALID_OUTPUT_FORMATS : list string := ["png"; "jpg"; "svg"; "pdf"].
Definition X_DISPLAY_NUMBER : Z := 1.

(** The configuration values [setup] registers, with the types their
    defaults and [ENUM]s give them; [drawio_headless] is ["auto"], [True] or
    [False] and is kept as a Python value because [is_headless] dispatches on
    its type. *)
Record Config := {
  drawio_default_export_scale : Z;
  drawio_default_transparency : bool;
  drawio_binary_path : option string;
  drawio_headless : pyval;
  drawio_no_sandbox : bool
}.

Record Builder := { config : Config; srcdir : string }.

(** [OPTIONAL_UNIQUES], in the order the dict literal lists its items. *)
Definition OPTIONAL_UNIQUES : list (string * string) :=
  [("export-height", "height"); ("export-width", "width")].

(** ** [is_headless] *)

Definition is_headless (cfg : Config) : M pyval :=
  if bool_decide (drawio_headless cfg = PStr "auto") then
    sys <-- gets system;;
    if negb (bool_decide (sys = "Linux")) then
      (* Xvfb can only run on Linux *)
      ret (PBool false)
    else
      (* DISPLAY will exist if an X-server is running. *)
      display <-- getenv "DISPLAY";;
      if truthy display then ret (PBool false) else ret (PBool true)
  else
    match drawio_headless cfg with
    | PBool b => ret (PBool b)
    | _ => ret PNone
    end.

(** ** [drawio_export] *)

(** [v / 100] for the value of an export scale: an [int] (or a [bool], which
    is an [int]) gives the float of that many hundredths, anything else is a
    [TypeError]. *)
Definition truediv_100 (v : pyval) : result Z :=
  match v with
  | PInt n => Ok n
  | PBool b => Ok (if b then 1 else 0)
  | PNone => Raise (TypeError "unsupported operand type(s) for /: 'NoneType' and 'int'")
  | PStr _ => Raise (TypeError "unsupported operand type(s) for /: 'str' and 'int'")
  end.

(** ['.' + v]: [v] has to be a [str]. *)
Definition concat_operand (v : pyval) : result string :=
  match v with
  | PStr s => Ok s
  | _ => Raise (TypeError "can only concatenate str to str")
  end.

(** [a or b] *)
Definition py_or (a b : pyval) : pyval := if truthy a then a else b.

(** Lines 148-156: the values the cache key is made of. *)
Definition unique_values (input_relpath : path) (page_index scale : string)
    (transparent : pyval) (options : gmap string pyval) : list string :=
  [ Pathlib.path_str input_relpath;
    page_index;
    scale;
    if truthy transparent then "true" else "false" ]
  ++ ((fun option => py_str (dict_get options option)) <$> OPTIONAL_UNIQUES.*1).

(** Lines 157-158 *)
Definition hash_key (values : list string) : string := Str.join nl values.
Definition sha_key (values : list string) : string := SHA1.hexdigest (hash_key values).

(** Line 159 *)
Definition export_dir_of (srcdir key : string) : path :=
  Path srcdir // Path ".drawio" // Path key.

(** Lines 135-156: the locals computed before anything is touched. *)
Record request_locals := {
  page_index : string;
  output_format : pyval;
  scale_value : Z;               (* the float [scale], in hundredths *)
  transparent : pyval;
  input_abspath : path;
  input_relpath : path;
  input_stem : string;
  values : list string           (* unique_values *)
}.

Definition prepare (builder : Builder) (options : gmap string pyval)
    (in_filename default_output_format : string) : result request_locals :=
  let cfg := config builder in
  let page_index := py_str (dict_get_or options "page-index" (PInt 0)) in
  let output_format := py_or (dict_get options "format") (PStr default_output_format) in
  match truediv_100 (dict_get_or options "export-scale"
                                 (PInt (drawio_default_export_scale cfg))) with
  | Raise e => Raise e
  | Ok scale_value =>
      let scale := float_str scale_value in
      let transparent :=
        dict_get_or options "transparency" (PBool (drawio_default_transparency cfg)) in
      let input_abspath := Path in_filename in
      match Pathlib.relative_to input_abspath (Path (srcdir builder)) with
      | Raise e => Raise e
      | Ok input_relpath =>
          Ok {| page_index := page_index;
                output_format := output_format;
                scale_value := scale_value;
                transparent := transparent;
                input_abspath := input_abspath;
                input_relpath := input_relpath;
                input_stem := Pathlib.stem input_abspath;
                values := unique_values input_relpath page_index scale
                                        transparent options |}
      end
  end.

(** Lines 161-163: the output format as text, the export path and the same
    path relative to the source directory. *)
Definition export_target (builder : Builder) (l : request_locals)
  : result (string * path * path) :=
  match concat_operand (output_format l) with
  | Raise e => Raise e
  | Ok fmt =>
      match Pathlib.with_suffix (Path (input_stem l)) ("." +:+ fmt) with
      | Raise e => Raise e
      | Ok filename =>
          let export_path :=
            export_dir_of (srcdir builder) (sha_key (values l)) // filename in
          match Pathlib.relative_to export_path (Path (srcdir builder)) with
          | Raise e => Raise e
          | Ok export_relpath => Ok (fmt, export_path, export_relpath)
          end
      end
  end.

(** Lines 165-166: is the export there and newer than the input? *)
Definition is_fresh (export_path input_abspath : path) : M bool :=
  there <-- path_exists export_path;;
  if there then
    t_out <-- stat_mtime export_path;;
    t_in <-- stat_mtime input_abspath;;
    ret (t_in <? t_out)
  else ret false.

(** Lines 169-174 *)
Definition binary_path_of (cfg : Config) (sys : string) : string :=
  match drawio_binary_path cfg with
  | Some b => if bool_decide (b = "") then
                if bool_decide (sys = "Windows")
                then "C:\Program Files\draw.io\draw.io.exe"
                else "/opt/draw.io/drawio"
              else b
  | None => if bool_decide (sys = "Windows")
            then "C:\Program Files\draw.io\draw.io.exe"
            else "/opt/draw.io/drawio"
  end.

(** Lines 176-179; [float(scale) == 1.0] holds exactly for the float of 100
    hundredths, since [float] reads back what [str] printed. *)
Definition scale_args_of (output_format : string) (scale_hundredths : Z)
  : list string :=
  if bool_decide (output_format = "pdf") && (scale_hundredths =? 100) then []
  else ["--scale"; float_str scale_hundredths].

(** Lines 181-189 *)
Definition extra_args_of (options : gmap string pyval) (transparent : pyval)
  : list string :=
  flat_map (fun '(option, drawio_arg) =>
              match options !! option with
              | Some value => ["--" +:+ drawio_arg; py_str value]
              | None => []
              end) OPTIONAL_UNIQUES
  ++ (if truthy transparent then ["--transparent"] else []).

(** Lines 191-208 *)
Definition drawio_args_of (binary_path page_index : string)
    (scale_args extra_args : list string) (output_format : string)
    (export_path : path) (in_filename : string) (no_sandbox : bool)
  : list string :=
  [binary_path; "--export"; "--crop"; "--page-index"; page_index]
  ++ scale_args ++ extra_args
  ++ ["--format"; output_format; "--output"; Pathlib.path_str export_path;
      in_filename]
  ++ (if no_sandbox then ["--no-sandbox"] else []).

(** Lines 169-208: the argument vector of a request on a given platform. *)
Definition command_line (cfg : Config) (sys : string) (options : gmap string pyval)
    (l : request_locals) (fmt : string) (export_path : path) (in_filename : string)
  : list string :=
  drawio_args_of (binary_path_of cfg sys) (page_index l)
                 (scale_args_of fmt (scale_value l))
                 (extra_args_of options (transparent l))
                 fmt export_path in_filename (drawio_no_sandbox cfg).

(** The three messages [drawio_export] raises [DrawIOError] with. *)
Definition output_missing_message (stderr stdout : string) : string :=
  "draw.io did not produce an output file:" +:+ nl +:+ "[stderr]" +:+ nl
  +:+ Bytes.repr stderr +:+ nl +:+ "[stdout]" +:+ nl +:+ Bytes.repr stdout.

Definition launch_failure_message (args : list string) (exc : string) : string :=
  "draw.io (" +:+ Str.join " " args +:+ ") exited with error:" +:+ nl +:+ exc.

Definition exit_failure_message (args : list string) (stderr stdout : string)
  : string :=
  "draw.io (" +:+ Str.join " " args +:+ ") exited with error:" +:+ nl
  +:+ "[stderr]" +:+ nl +:+ Bytes.repr stderr +:+ nl +:+ "[stdout]" +:+ nl
  +:+ Bytes.repr stdout.

(** Lines 210-212: the environment handed to the renderer. *)
Definition renderer_env (cfg : Config) : M (gmap string string) :=
  new_env <-- gets environ;;
  headless <-- is_headless cfg;;
  if truthy headless
  then ret (<["DISPLAY" := ":" +:+ pretty X_DISPLAY_NUMBER]> new_env)
  else ret new_env.

(** Lines 169-229: run the renderer for a cache miss. *)
Definition render (cfg : Config) (options : gmap string pyval)
    (l : request_locals) (fmt : string) (export_path export_relpath : path)
    (in_filename : string) : M path :=
  sys <-- gets system;;
  let drawio_args := command_line cfg sys options l fmt export_path in_filename in
  new_env <-- renderer_env cfg;;
  outcome <-- subprocess_run drawio_args new_env;;
  match outcome with
  | LaunchFailed exc =>
      raise (DrawIOError (launch_failure_message drawio_args exc))
  | Exited returncode stdout stderr _ =>
      if negb (returncode =? 0) then
        raise (DrawIOError (exit_failure_message drawio_args stderr stdout))
      else
        there <-- path_exists export_path;;
        if negb there then
          raise (DrawIOError (output_missing_message stderr stdout))
        else
          logger_info ("(drawio) '" +:+ Pathlib.path_str (input_relpath l) +:+ "' -> '"
                       +:+ Pathlib.path_str export_relpath +:+ "'");;;
          ret export_path
  end.

Definition drawio_export (builder : Builder) (options : gmap string pyval)
    (in_filename default_output_format : string) : M path :=
  l <-- lift (prepare builder options in_filename default_output_format);;
  ensuredir (export_dir_of (srcdir builder) (sha_key (values l)));;;
  target <-- lift (export_target builder l);;
  let '(fmt, export_path, export_relpath) := target in
  fresh <-- is_fresh export_path (input_abspath l);;
  if fresh then ret export_path
  else render (config builder) options l fmt export_path export_relpath in_filename.

(** ** [on_config_inited] *)

Definition on_config_inited (cfg : Config) : M unit :=
  headless <-- is_headless cfg;;
  if truthy headless then
    let cmd := ["Xvfb"; ":" +:+ pretty X_DISPLAY_NUMBER; "-screen"; "0"; "1280x768x16"] in
    outcome <-- (fun w => (Ok (popen w cmd), add_started cmd w));;
    match outcome with
    | PopenFailed exc => raise (OSError exc)
    | PopenStarted pid poll stdout stderr =>
        modify (set_xvfb_pid pid);;;
        match poll with
        | Some _ =>
            raise (OSError ("Failed to start Xvfb process" +:+ nl +:+ "[stdout]" +:+ nl
                            +:+ Bytes.repr stdout +:+ nl +:+ "[stderr]"
                            +:+ Bytes.repr stderr))
        | None => ret tt
        end
    end
  else logger_info "running in non-headless mode, not starting Xvfb".

(** ** Vocabulary of the properties *)

(** [needle in s] for strings: does [needle] occur in [s]? *)
Fixpoint is_prefix (p s : string) : bool :=
  match p, s with
  | EmptyString, _ => true
  | String a p', String b s' => bool_decide (a = b) && is_prefix p' s'
  | String _ _, EmptyString => false
  end.

Fixpoint occurs (needle s : string) : bool :=
  is_prefix needle s
  || match s with
     | EmptyString => false
     | String _ s' => occurs needle s'
     end.

(** [s] holds [x] as it is, somewhere. *)
Definition includes (s x : string) : Prop := exists a b, s = a +:+ x +:+ b.

(** Output that [repr] leaves as it is: printable ASCII other than the
    single quote and the backslash. *)
Definition plain_char (c : ascii) : bool :=
  let n := Z.of_N (N_of_ascii c) in
  (32 <=? n) && (n <? 127) && negb (bool_decide (c = "'"%char))
  && negb (bool_decide (c = "\"%char)).

Fixpoint plain (s : string) : bool :=
  match s with
  | EmptyString => true
  | String c s' => plain_char c && plain s'
  end.

(** The values the converters of [DrawIOBase.option_spec] (lines 74-81) can
    put under each option name: [format_spec] a valid format,
    [nonnegative_int] an integer from 0, [boolean_spec] a boolean,
    [positive_int] an integer from 1.  Other names (those of the image
    directive) are not read by the export. *)
Definition option_value_ok (k : string) (v : pyval) : bool :=
  if bool_decide (k = "format") then
    match v with PStr s => bool_decide (s ∈ VALID_OUTPUT_FORMATS) | _ => false end
  else if bool_decide (k = "page-index") then
    match v with PInt n => 0 <=? n | _ => false end
  else if bool_decide (k = "transparency") then
    match v with PBool _ => true | _ => false end
  else if bool_decide (k = "export-scale") || bool_decide (k = "export-width")
          || bool_decide (k = "export-height") then
    match v with PInt n => 1 <=? n | _ => false end
  else true.

Definition options_ok (options : gmap string pyval) : Prop :=
  map_Forall (fun k v => option_value_ok k v = true) options.

#[global] Instance options_ok_dec options : Decision (options_ok options).
Proof. unfold options_ok. apply _. Defined.


(** The cache key of a request: the digest [drawio_export] names the export
    directory with, or the exception raised before there is one. *)
Definition cache_key (builder : Builder) (options : gmap string pyval)
    (in_filename default_output_format : string) : result string :=
  match prepare builder options in_filename default_output_format with
  | Ok l => Ok (sha_key (values l))
  | Raise e => Raise e
  end.

(** [in_filename] names a place under the source directory (or the directory
    itself): same root, and the directory's components come first. *)
Definition inside (srcdir in_filename : string) : Prop :=
  Pathlib.root (Path in_filename) = Pathlib.root (Path srcdir)
  /\ Pathlib.names (Path srcdir) `prefix_of` Pathlib.names (Path in_filename).

(** A character that no decimal digit is. *)
Definition not_a_digit (c : ascii) : Prop := Str.contains c "0123456789" = false.


(** The environment names a display: [DISPLAY] is set to a non-empty text. *)
Definition has_display (w : world) : bool :=
  match environ w !! "DISPLAY" with
  | Some v => negb (bool_decide (v = ""))
  | None => false
  end.

(** Whether a run under configuration [cfg] in world [w] counts as headless:
    the truth value of what [is_headless] returns. *)
Definition headless_decision (cfg : Config) (w : world) : bool :=
  match is_headless cfg w with
  | (Ok v, _) => truthy v
  | (Raise _, _) => false
  end.

(** The environment [drawio_export] hands to the renderer in world [w]. *)
Definition renderer_env_in (cfg : Config) (w : world) : gmap string string :=
  if headless_decision cfg w
  then <["DISPLAY" := ":" +:+ pretty X_DISPLAY_NUMBER]> (environ w)
  else environ w.

#[global] Instance inside_dec srcdir in_filename : Decision (inside srcdir in_filename).
Proof. unfold inside. apply _. Defined.

(** The cached export of a source is fresh: it exists and was modified
    strictly after the source. *)
Definition fresh_in (w : world) (export_path : path) (src : stat_result) : Prop :=
  exists art, files w !! export_path = Some art /\ st_mtime src < st_mtime art.

(** The directory an export path lies in. *)
Definition parent (p : path) : path :=
  {| Pathlib.root := Pathlib.root p; Pathlib.names := removelast (Pathlib.names p) |}.

(** ** Example requests and worlds

    A builder with the default configuration of [setup] over the source
    directory [/docs], and a few worlds: one where the renderer writes the
    file it is asked for, one that holds a fresh export already, one whose
    [DISPLAY] is set but empty, one whose renderer fails, and one whose
    renderer exits with status 0 without writing anything. *)

Definition example_config : Config :=
  {| drawio_default_export_scale := 100;
     drawio_default_transparency := false;
     drawio_binary_path := None;
     drawio_headless := PStr "auto";
     drawio_no_sandbox := false |}.

Definition example_builder : Builder :=
  {| config := example_config; srcdir := "/docs" |}.

Definition example_world : world :=
  {| system := "Linux";
     environ := ∅;
     files := {[ Path "/docs/a.drawio" := {| st_mtime := 10; st_isdir := false |} ]};
     now := 20;
     exec := fun args env fs =>
       Exited 0 "" ""
         (<[Path (nth 10 args "") := {| st_mtime := 30; st_isdir := false |}]> fs);
     popen := fun _ => PopenStarted 4242 None "" "";
     spawned := [];
     started := [];
     log := [];
     xvfb_pid := None |}.

Definition cached_world : world :=
  {| system := "Linux";
     environ := {[ "DISPLAY" := ":0" ]};
     files := {[ Path "/docs/a.drawio" := {| st_mtime := 10; st_isdir := false |};
                 Path "/docs/.drawio/f819339468a4e0ea104455cd3755f227620b3de7/a.svg"
                   := {| st_mtime := 11; st_isdir := false |} ]};
     now := 20;
     exec := fun _ _ _ => LaunchFailed "[Errno 2] No such file or directory";
     popen := fun _ => PopenFailed "[Errno 2] No such file or directory: 'Xvfb'";
     spawned := [];
     started := [];
     log := [];
     xvfb_pid := None |}.

Definition empty_display_world : world :=
  {| system := "Linux";
     environ := {[ "DISPLAY" := "" ]};
     files := ∅;
     now := 0;
     exec := fun _ _ _ => LaunchFailed "";
     popen := fun _ => PopenStarted 4242 None "" "";
     spawned := [];
     started := [];
     log := [];
     xvfb_pid := None |}.

Definition failing_world : world :=
  {| system := "Linux";
     environ := {[ "DISPLAY" := ":0" ]};
     files := {[ Path "/docs/a.drawio" := {| st_mtime := 10; st_isdir := false |} ]};
     now := 20;
     exec := fun _ _ fs => Exited 1 "" ("Error: no display" +:+ nl +:+ "Aborted") fs;
     popen := fun _ => PopenFailed "";
     spawned := [];
     started := [];
     log := [];
     xvfb_pid := None |}.

Definition silent_world : world :=
  {| system := "Linux";
     environ := {[ "DISPLAY" := ":0" ]};
     files := {[ Path "/docs/a.drawio" := {| st_mtime := 10; st_isdir := false |} ]};
     now := 20;
     exec := fun _ _ fs => Exited 0 "" "" fs;
     popen := fun _ => PopenFailed "";
     spawned := [];
     started := [];
     log := [];
     xvfb_pid := None |}.

(** ** [boolean_spec] (lines 58-64)

    The argument of a directive option is a [str], or [None] when the option
    was written without a value. *)
Definition boolean_spec (argument : pyval) : result bool :=
  if bool_decide (argument = PStr "true") then Ok true
  else if bool_decide (argument = PStr "false") then Ok false
  else Raise (ValueError "unexpected value. true or false expected").

(** ** Document nodes and [traverse] (lines 67-70)

    A docutils node, as far as the directive looks at it: its tag (an image
    node has the tag [image]), its [classes] attribute, its other attributes
    and its children.  A document is a tree: no node has two parents. *)
#[local] Unset Elimination Schemes.
Inductive node :=
  | Element (tagname : string) (classes : list string)
            (attributes : gmap string string) (children : list node).
#[local] Set Elimination Schemes.

Definition tagname_of (n : node) : string :=
  match n with Element t _ _ _ => t end.
Definition classes_of (n : node) : list string :=
  match n with Element _ c _ _ => c end.
Definition attributes_of (n : node) : gmap string string :=
  match n with Element _ _ a _ => a end.
Definition children_of (n : node) : list node :=
  match n with Element _ _ _ cs => cs end.

(** [isinstance(node, docutils_image)] *)
Definition is_image (n : node) : bool := bool_decide (tagname_of n = "image").

(** What [traverse] yields for one node: the node, then what [traverse]
    yields for its children. *)
Fixpoint traverse_node (n : node) : list node :=
  match n with
  | Element _ _ _ cs =>
      n :: (fix traverse (nodes : list node) : list node :=
              match nodes with
              | [] => []
              | c :: rest => traverse_node c ++ traverse rest
              end) cs
  end.

(** [traverse(nodes)], as the list of the nodes the generator yields. *)
Definition traverse : list node -> list node :=
  fix traverse (nodes : list node) : list node :=
    match nodes with
    | [] => []
    | c :: rest => traverse_node c ++ traverse rest
    end.

(** Lines 110-111 on the image node: [image["classes"].append("drawio")] and
    [image["uri"] = uri]. *)
Definition mark_image (uri : string) (n : node) : node :=
  match n with
  | Element t c a cs => Element t (c ++ ["drawio"]) (<["uri" := uri]> a) cs
  end.

(** The tree after the node object that the loop of lines 106-109 stops at,
    the first image [traverse] yields, was changed in place by [f]; [None]
    when the walk meets no image. *)
Fixpoint update_image_node (f : node -> node) (n : node) : option node :=
  if is_image n then Some (f n)
  else
    match n with
    | Element t c a cs =>
        match (fix update (nodes : list node) : option (list node) :=
                 match nodes with
                 | [] => None
                 | x :: rest =>
                     match update_image_node f x with
                     | Some x' => Some (x' :: rest)
                     | None =>
                         match update rest with
                         | Some rest' => Some (x :: rest')
                         | None => None
                         end
                     end
                 end) cs with
        | Some cs' => Some (Element t c a cs')
        | None => None
        end
    end.

Definition update_image (f : node -> node) : list node -> option (list node) :=
  fix update (nodes : list node) : option (list node) :=
    match nodes with
    | [] => None
    | x :: rest =>
        match update_image_node f x with
        | Some x' => Some (x' :: rest)
        | None =>
            match update rest with
            | Some rest' => Some (x :: rest')
            | None => None
            end
        end
    end.

(** ** [os.path] on POSIX *)

(** [os.path.join(a, b)] *)
Definition os_path_join (a b : string) : string :=
  if Str.starts_with "/" b then b
  else if bool_decide (a = "") || Str.starts_with "/" (String.rev a) then a +:+ b
  else a +:+ "/" +:+ b.

(** One step of [os.path.normpath] on an absolute path: [..] drops the last
    component, if there is one; anything else is kept. *)
Definition normpath_step (comps : list string) (comp : string) : list string :=
  if bool_decide (comp = "..") then removelast comps else comps ++ [comp].

(** The components of [os.path.abspath(p)], for the working directory
    [cwd] (an absolute path). *)
Definition abspath_names (cwd p : path) : list string :=
  foldl normpath_step [] (Pathlib.names (cwd // p)).

(** [os.path.commonprefix] of two lists *)
Fixpoint commonprefix (a b : list string) : list string :=
  match a, b with
  | x :: a', y :: b' => if decide (x = y) then x :: commonprefix a' b' else []
  | _, _ => []
  end.

(** [os.path.relpath(p, start)] *)
Definition relpath (cwd p start : path) : string :=
  let start_list := abspath_names cwd start in
  let path_list := abspath_names cwd p in
  let i := List.length (commonprefix start_list path_list) in
  let rel_list := replicate (List.length start_list - i) ".." ++ drop i path_list in
  match rel_list with
  | [] => "."
  | _ => Str.join "/" rel_list
  end.

(** ** The build around the export

    What the directive and the build-finished hook touch besides the world
    of [drawio_export]: the working directory, the dependencies noted for the
    document, the warnings logged, the assets copied and the signals sent. *)
Record session := {
  s_world : world;
  cwd : path;                              (* os.getcwd() *)
  dependencies : list string;              (* env.note_dependency calls *)
  warnings : list string;                  (* logger.warning lines *)
  copied : list (string * string);         (* copy_asset calls *)
  signals : list (Z * Z);                  (* os.kill calls: pid, signal *)
  waited : list Z                          (* os.waitid calls *)
}.

Definition set_world (w : world) (s : session) : session :=
  {| s_world := w; cwd := cwd s; dependencies := dependencies s;
     warnings := warnings s; copied := copied s; signals := signals s;
     waited := waited s |}.

Definition add_dependency (d : string) (s : session) : session :=
  {| s_world := s_world s; cwd := cwd s; dependencies := d :: dependencies s;
     warnings := warnings s; copied := copied s; signals := signals s;
     waited := waited s |}.

Definition add_warning (m : string) (s : session) : session :=
  {| s_world := s_world s; cwd := cwd s; dependencies := dependencies s;
     warnings := m :: warnings s; copied := copied s; signals := signals s;
     waited := waited s |}.

Definition add_copied (c : string * string) (s : session) : session :=
  {| s_world := s_world s; cwd := cwd s; dependencies := dependencies s;
     warnings := warnings s; copied := c :: copied s; signals := signals s;
     waited := waited s |}.

Definition add_signal (c : Z * Z) (s : session) : session :=
  {| s_world := s_world s; cwd := cwd s; dependencies := dependencies s;
     warnings := warnings s; copied := copied s; signals := c :: signals s;
     waited := waited s |}.

Definition add_waited (pid : Z) (s : session) : session :=
  {| s_world := s_world s; cwd := cwd s; dependencies := dependencies s;
     warnings := warnings s; copied := copied s; signals := signals s;
     waited := pid :: waited s |}.

(** The exceptions of the directive and of the hook: those of the export,
    the one the parent directive's [run] ends with, and Python's own for a
    local variable or an attribute that was never set. *)
Inductive error :=
  | ExportError (e : exn)
  | ParentError (msg : string)
  | UnboundLocalError (msg : string)
  | AttributeError (msg : string).

Inductive outcome (A : Type) :=
  | Done (a : A)
  | Failed (e : error).
Arguments Done {A} a.
Arguments Failed {A} e.

Definition Act (A : Type) : Type := session -> outcome A * session.

Definition s_ret {A} (a : A) : Act A := fun s => (Done a, s).
Definition s_fail {A} (e : error) : Act A := fun s => (Failed e, s).
Definition s_bind {A B} (c : Act A) (k : A -> Act B) : Act B :=
  fun s => match c s with
           | (Done a, s') => k a s'
           | (Failed e, s') => (Failed e, s')
           end.
Definition s_modify (f : session -> session) : Act unit := fun s => (Done tt, f s).

(** A computation on the world, run inside the build. *)
Definition in_world {A} (c : M A) : Act A :=
  fun s => match c (s_world s) with
           | (Ok a, w') => (Done a, set_world w' s)
           | (Raise e, w') => (Failed (ExportError e), set_world w' s)
           end.

Notation "x <~~ c ;; k" := (s_bind c (fun x => k))
  (at level 100, c at next level, right associativity).
Notation "c ;;;; k" := (s_bind c (fun _ => k))
  (at level 100, right associativity).

Definition FALLBACK_EXPORT_FORMAT : string := "png".

Definition DEFAULT_BUILDER_EXPORT_FORMAT : gmap string string :=
  {[ "html" := "svg"; "latex" := "pdf"; "rinoh" := "pdf" ]}.

Definition SIGTERM : Z := 15.

(** ** [DrawIOBase.run] (lines 83-112) *)

Module DrawIOBase.

(** The directive object and what it reaches through [self]: its first
    argument, its options and line number; [env.relfn2path]; the builder, its
    name and its [drawio_builder_export_format]; the name of the document; and
    what the parent directive's [run] (of [Image] or [Figure]) returns. *)
Record t := {
  argument : string;                       (* self.arguments[0] *)
  options : gmap string pyval;
  lineno : Z;
  relfn2path : string -> string * string;
  builder : Builder;
  builder_name : string;
  drawio_builder_export_format : gmap string string;
  docname : string;
  parent_run : outcome (list node)         (* super().run() *)
}.

(** [self.state.document.reporter.warning(msg, lineno=lineno)]: the
    system-message node it returns. *)
Definition reporter_warning (msg : string) (lineno : Z) : node :=
  Element "system_message" []
          {[ "level" := "2"; "type" := "WARNING"; "line" := pretty lineno;
             "message" := msg ]} [].

(** Lines 92-100 *)
Definition export_format_of (self : t) : Act string :=
  match drawio_builder_export_format self !! builder_name self with
  | Some export_format => s_ret export_format
  | None =>
      s_modify (add_warning
        ("No export format specified for builder '" +:+ builder_name self
         +:+ "' in 'drawio_builder_export_format'. Using '"
         +:+ FALLBACK_EXPORT_FORMAT +:+ "' as a fall-back."));;;;
      s_ret FALLBACK_EXPORT_FORMAT
  end.

Definition run (self : t) : Act (list node) :=
  let '(rel_filename, filename) := relfn2path self (argument self) in
  s_modify (add_dependency rel_filename);;;;
  there <~~ in_world (path_exists (Path filename));;
  if negb there then
    s_ret [reporter_warning ("External draw.io file " +:+ filename +:+ " not found.")
                            (lineno self)]
  else
    export_format <~~ export_format_of self;;
    export_path <~~ in_world (drawio_export (builder self) (options self) filename
                                            export_format);;
    let source_path := Path (srcdir (builder self)) in
    let document_path := source_path // Path (docname self) in
    nodes <~~ (fun s => (parent_run self, s));;
    here <~~ (fun s => (Done (cwd s), s));;
    match update_image (mark_image (relpath here export_path (parent document_path)))
                       nodes with
    | Some nodes' => s_ret nodes'
    | None =>
        s_fail (UnboundLocalError
          "cannot access local variable 'image' where it is not associated with a value")
    end.

End DrawIOBase.

(** ** [on_build_finished] (lines 246-255)

    [exc] is the exception the build ended with, if any; [this_file_path] is
    the directory of the module's file; [outdir] is [app.outdir].  Failures of
    [os.kill] and [os.waitid] are not modelled. *)
Definition on_build_finished (cfg : Config) (this_file_path outdir : string)
    (exc : option string) : Act unit :=
  match exc with
  | None =>
      let src := os_path_join this_file_path "drawio.css" in
      let dst := os_path_join outdir "_static" in
      s_modify (add_copied (src, dst))
  | Some _ => s_ret tt
  end;;;;
  headless <~~ in_world (is_headless cfg);;
  if truthy headless then
    pid <~~ (fun s => match xvfb_pid (s_world s) with
                      | Some pid => (Done pid, s)
                      | None => (Failed (AttributeError "No such config value: xvfb_pid"), s)
                      end);;
    s_modify (add_signal (pid, SIGTERM));;;;
    pid' <~~ (fun s => match xvfb_pid (s_world s) with
                       | Some pid => (Done pid, s)
                       | None => (Failed (AttributeError "No such config value: xvfb_pid"), s)
                       end);;
    s_modify (add_waited pid')
  else s_ret tt.

(** ** Example directives

    A directive of the document [index] in the builder above, whose parent
    returns a figure that holds one image; the same on a file that does not
    exist; and a session around a world, started in [/work]. *)
Definition example_directive : DrawIOBase.t :=
  {| DrawIOBase.argument := "a.drawio";
     DrawIOBase.options := ∅;
     DrawIOBase.lineno := 7;
     DrawIOBase.relfn2path := fun f => (f, "/docs/" +:+ f);
     DrawIOBase.builder := example_builder;
     DrawIOBase.builder_name := "html";
     DrawIOBase.drawio_builder_export_format := DEFAULT_BUILDER_EXPORT_FORMAT;
     DrawIOBase.docname := "index";
     DrawIOBase.parent_run :=
       Done [Element "figure" [] ∅
               [Element "image" [] {[ "uri" := "a.drawio" ]} [];
                Element "caption" [] ∅ []]] |}.

Definition missing_directive : DrawIOBase.t :=
  {| DrawIOBase.argument := "missing.drawio";
     DrawIOBase.options := ∅;
     DrawIOBase.lineno := 7;
     DrawIOBase.relfn2path := fun f => (f, "/docs/" +:+ f);
     DrawIOBase.builder := example_builder;
     DrawIOBase.builder_name := "html";
     DrawIOBase.drawio_builder_export_format := DEFAULT_BUILDER_EXPORT_FORMAT;
     DrawIOBase.docname := "index";
     DrawIOBase.parent_run := Done [Element "image" [] ∅ []] |}.

(** A directive that asks for svg under a builder without an entry in
    [drawio_builder_export_format]. *)
Definition unmapped_directive : DrawIOBase.t :=
  {| DrawIOBase.argument := "a.drawio";
     DrawIOBase.options := {[ "format" := PStr "svg" ]};
     DrawIOBase.lineno := 7;
     DrawIOBase.relfn2path := fun f => (f, "/docs/" +:+ f);
     DrawIOBase.builder := example_builder;
     DrawIOBase.builder_name := "epub";
     DrawIOBase.drawio_builder_export_format := DEFAULT_BUILDER_EXPORT_FORMAT;
     DrawIOBase.docname := "index";
     DrawIOBase.parent_run := Done [Element "image" [] ∅ []] |}.

(** A directive whose parent returns no image. *)
Definition imageless_directive : DrawIOBase.t :=
  {| DrawIOBase.argument := "a.drawio";
     DrawIOBase.options := ∅;
     DrawIOBase.lineno := 7;
     DrawIOBase.relfn2path := fun f => (f, "/docs/" +:+ f);
     DrawIOBase.builder := example_builder;
     DrawIOBase.builder_name := "html";
     DrawIOBase.drawio_builder_export_format := DEFAULT_BUILDER_EXPORT_FORMAT;
     DrawIOBase.docname := "index";
     DrawIOBase.parent_run := Done [Element "paragraph" [] ∅ [Element "#text" [] ∅ []]] |}.

Definition example_session (w : world) : session :=
  {| s_world := w; cwd := Path "/work"; dependencies := []; warnings := [];
     copied := []; signals := []; waited := [] |}.

(** ** Vocabulary of the further properties *)

(** The option names [drawio_export] looks up (lines 135-140, 155 and
    182-184). *)
Definition export_options : list string :=
  ["page-index"; "format"; "export-scale"; "transparency"; "export-height";
   "export-width"].

(** [n] is a node of the forest [nodes]: one of its roots, or a node of the
    forest of children of one of its roots. *)
Inductive within : node -> list node -> Prop :=
  | within_root n nodes : n ∈ nodes -> within n nodes
  | within_child n m nodes : m ∈ nodes -> within n (children_of m) -> within n nodes.

(** What a node shows of itself: its tag, its classes, its attributes and
    the number of its children. *)
Definition node_row (n : node) : string * list string * gmap string string * nat :=
  (tagname_of n, classes_of n, attributes_of n, List.length (children_of n)).

(** A path as [pathlib] holds it: no component has a slash, is empty or is
    [.]. *)
Definition proper (p : path) : Prop :=
  Forall (fun x => Str.contains "/" x = false /\ x <> "" /\ x <> ".") (Pathlib.names p).

#[global] Instance proper_dec p : Decision (proper p).
Proof. unfold proper. apply _. Defined.

(** The file a relative [uri] names for a reader in the directory with the
    components [dir]: the components of [normpath(join(dir, uri))]. *)
Definition resolve (dir : list string) (uri : string) : list string :=
  foldl normpath_step [] (dir ++ Pathlib.names (Path uri)).


(** * Properties *)

(** ** Strings *)

Lemma app_cons a (s t : string) : String a s +:+ t = String a (s +:+ t).
Proof. reflexivity. Qed.

Lemma app_nil_l_str (s : string) : "" +:+ s = s.
Proof. reflexivity. Qed.

Lemma app_nil_r_str (s : string) : s +:+ "" = s.
Proof. induction s as [|a s IH]; [done|]. by rewrite app_cons, IH. Qed.

Lemma app_assoc_str (s t u : string) : (s +:+ t) +:+ u = s +:+ t +:+ u.
Proof. induction s as [|a s IH]; [done|]. by rewrite !app_cons, IH. Qed.

Lemma contains_app c s t :
  Str.contains c (s +:+ t) = Str.contains c s || Str.contains c t.
Proof.
  induction s as [|a s IH]; [done|].
  rewrite app_cons. simpl. destruct (decide (a = c)); [done|apply IH].
Qed.

Lemma contains_cons_same c s : Str.contains c (String c s) = true.
Proof. simpl. by rewrite decide_True. Qed.



(** ** Decimal text of integers and of [n / 100] *)

Lemma pretty_N_char_not c d : not_a_digit c -> pretty_N_char d <> c.
Proof.
  unfold not_a_digit, pretty_N_char. intros Hc <-.
  repeat case_match; simpl in Hc; discriminate.
Qed.

Lemma pretty_N_go_contains c x s :
  not_a_digit c -> Str.contains c (pretty_N_go x s) = Str.contains c s.
Proof.
  intros Hc. revert s.
  induction (N.lt_wf_0 x) as [x _ IH]; intros s.
  destruct (decide (x = 0)%N) as [->|Hx]; [by rewrite pretty_N_go_0|].
  rewrite pretty_N_go_step by lia.
  rewrite IH by (apply N.div_lt; lia).
  simpl. rewrite decide_False; [done|by apply pretty_N_char_not].
Qed.

Lemma pretty_N_contains c (x : N) : not_a_digit c -> Str.contains c (pretty x) = false.
Proof.
  intros Hc. unfold pretty, pretty_N. case_decide.
  - unfold not_a_digit in Hc. simpl in *. by destruct (decide ("0"%char = c)).
  - by rewrite pretty_N_go_contains.
Qed.

Lemma pretty_Z_contains c (x : Z) :
  not_a_digit c -> c <> "-"%char -> Str.contains c (pretty x) = false.
Proof.
  intros Hc Hm. destruct x as [|p|p]; unfold pretty, pretty_Z.
  - unfold not_a_digit in Hc. simpl in *. by destruct (decide ("0"%char = c)).
  - apply (pretty_N_contains c (N.pos p) Hc).
  - rewrite contains_app. simpl. rewrite decide_False by done.
    apply (pretty_N_contains c (N.pos p) Hc).
Qed.

Lemma pretty_Z_nonneg_contains c (x : Z) :
  0 <= x -> not_a_digit c -> Str.contains c (pretty x) = false.
Proof.
  intros Hx Hc. destruct x as [|p|p]; [| |lia]; unfold pretty, pretty_Z.
  - unfold not_a_digit in Hc. simpl in *. by destruct (decide ("0"%char = c)).
  - apply (pretty_N_contains c (N.pos p) Hc).
Qed.

Lemma float_str_unfold n :
  float_str n = (if n <? 0 then "-" else "") +:+ pretty (Z.abs n / 100) +:+ "."
                +:+ frac_str (Z.abs n mod 100).
Proof. reflexivity. Qed.



Lemma frac_str_contains_bounded c :
  not_a_digit c -> forall a, Str.contains c (frac_str a) = false.
Proof.
  intros Hc a. unfold frac_str, digit_char.
  assert (forall d, Str.contains c (pretty (d mod 10)) = false) as Hd.
  { intros d. apply pretty_Z_nonneg_contains; [|done].
    apply Z.mod_pos_bound. lia. }
  case_match; [apply Hd|]. by rewrite contains_app, !Hd.
Qed.

(** [str] of a float has no character other than digits, the sign and the
    point. *)
Lemma float_str_contains c n :
  not_a_digit c -> c <> "-"%char -> c <> "."%char ->
  Str.contains c (float_str n) = false.
Proof.
  intros Hc Hm Hp. rewrite float_str_unfold, !contains_app.
  rewrite (pretty_Z_contains c) by done.
  rewrite frac_str_contains_bounded by done.
  case_match; simpl; rewrite ?decide_False by done; done.
Qed.



(** ** Paths *)

Lemma strip_prefix_app pre rest : Pathlib.strip_prefix pre (pre ++ rest) = Some rest.
Proof.
  induction pre as [|x pre IH]; [done|]. simpl. by rewrite decide_True.
Qed.

Lemma strip_prefix_Some pre l rest :
  Pathlib.strip_prefix pre l = Some rest <-> l = pre ++ rest.
Proof.
  split; [|intros ->; apply strip_prefix_app].
  revert l. induction pre as [|x pre IH]; intros [|y l]; simpl; try congruence.
  destruct (decide (x = y)) as [->|]; [|done].
  intros H. by rewrite (IH _ H).
Qed.

(** [relative_to] succeeds exactly on the paths inside the other one. *)
Lemma relative_to_Ok p other rel :
  Pathlib.relative_to p other = Ok rel <->
  Pathlib.root p = Pathlib.root other
  /\ Pathlib.names p = Pathlib.names other ++ Pathlib.names rel
  /\ Pathlib.root rel = "".
Proof.
  unfold Pathlib.relative_to. destruct (decide _) as [Hr|Hr].
  - destruct (Pathlib.strip_prefix _ _) as [rest|] eqn:Hs.
    + apply strip_prefix_Some in Hs. split.
      * intros [= <-]. done.
      * intros (_ & Hn & Hroot). destruct rel as [r n]. simpl in *. subst.
        rewrite Hn in Hs. by apply app_inv_head in Hs as ->.
    + split; [done|]. intros (_ & Hn & _).
      apply strip_prefix_Some in Hn. congruence.
  - split; [done|]. by intros (? & _).
Qed.

Lemma relative_to_Raise p other :
  (exists msg, Pathlib.relative_to p other = Raise (ValueError msg)) <->
  ~ (Pathlib.root p = Pathlib.root other
     /\ Pathlib.names other `prefix_of` Pathlib.names p).
Proof.
  unfold Pathlib.relative_to. destruct (decide _) as [Hr|Hr].
  - destruct (Pathlib.strip_prefix _ _) as [rest|] eqn:Hs.
    + apply strip_prefix_Some in Hs. split; [by intros [? ?]|].
      intros []. split; [done|]. by exists rest.
    + split; [|by eauto]. intros _ [_ [rest Hrest]].
      apply strip_prefix_Some in Hrest. congruence.
  - split; [|by eauto]. by intros _ [? _].
Qed.

Lemma joinpath_relative p q :
  Pathlib.root q = "" ->
  p // q = {| Pathlib.root := Pathlib.root p;
              Pathlib.names := Pathlib.names p ++ Pathlib.names q |}.
Proof. intros Hq. unfold Pathlib.joinpath. by rewrite bool_decide_eq_true_2. Qed.

Lemma relative_to_joinpath p rel :
  Pathlib.root rel = "" -> Pathlib.relative_to (p // rel) p = Ok rel.
Proof.
  intros Hrel. apply relative_to_Ok. by rewrite joinpath_relative.
Qed.

(** The pieces [split] cuts have no separator left in them. *)
Lemma split_pieces c s : Forall (fun x => Str.contains c x = false) (Str.split c s).
Proof.
  induction s as [|a s IH]; simpl.
  - by repeat constructor.
  - destruct (decide (a = c)) as [->|Hne].
    + by constructor.
    + destruct (Str.split c s) as [|x xs].
      * constructor; [|done]. simpl. by rewrite decide_False.
      * apply Forall_cons_1 in IH as [Hx Hxs]. constructor; [|done].
        simpl. by rewrite decide_False.
Qed.

Lemma split_no_sep c s : Str.contains c s = false -> Str.split c s = [s].
Proof.
  induction s as [|a s IH]; simpl; [done|].
  destruct (decide (a = c)); [done|]. intros H. by rewrite (IH H).
Qed.

Lemma Forall_filter_keep {A} (P Q : A -> Prop) `{forall x, Decision (Q x)} l :
  Forall P l -> Forall P (filter Q l).
Proof.
  induction 1 as [|x l Hx Hl IH]; [constructor|].
  rewrite filter_cons. case_decide; [by constructor|done].
Qed.

Lemma Path_names_slash_free s :
  Forall (fun x => Str.contains "/" x = false) (Pathlib.names (Path s)).
Proof.
  unfold Pathlib.Path. simpl. apply Forall_filter_keep, split_pieces.
Qed.

Lemma length_drop_str n s : String.length (Str.drop n s) = (String.length s - n)%nat.
Proof.
  revert s. induction n as [|n IH]; intros [|a s]; simpl; done.
Qed.

Lemma parse_root_slash_free s : Str.contains "/" s = false -> Pathlib.parse_root s = "".
Proof.
  destruct s as [|a s]; [done|]. simpl. destruct (decide (a = "/"%char)); [done|].
  intros _. unfold Pathlib.parse_root.
  destruct a as [[] [] [] [] [] [] [] []]; done.
Qed.

Lemma contains_take c n s : Str.contains c s = false -> Str.contains c (Str.take n s) = false.
Proof.
  revert s. induction n as [|n IH]; intros [|a s]; simpl; try done.
  destruct (decide (a = c)); [done|]. apply IH.
Qed.

Lemma name_slash_free s : Str.contains "/" (Pathlib.name (Path s)) = false.
Proof.
  unfold Pathlib.name. pose proof (Path_names_slash_free s) as H.
  induction H as [|x l Hx Hl IH]; [done|].
  destruct l; [done|]. apply IH.
Qed.

Lemma stem_slash_free s : Str.contains "/" (Pathlib.stem (Path s)) = false.
Proof.
  unfold Pathlib.stem. pose proof (name_slash_free s).
  destruct (Pathlib.suffix_index _); [by apply contains_take|done].
Qed.

(** A text without a slash is a relative path of at most one component. *)
Lemma Path_component s :
  Str.contains "/" s = false ->
  Pathlib.root (Path s) = ""
  /\ (Pathlib.names (Path s) = [s] \/ Pathlib.names (Path s) = []).
Proof.
  intros H. split; [by apply parse_root_slash_free|].
  unfold Pathlib.Path. simpl. rewrite (split_no_sep _ _ H).
  rewrite filter_cons, filter_nil. case_decide; [by left|by right].
Qed.

(** What [with_suffix] makes of a one-component path: one component again,
    the stem of the old one followed by the suffix. *)
Lemma with_suffix_component s sfx q :
  Str.contains "/" s = false ->
  Pathlib.with_suffix (Path s) sfx = Ok q ->
  Pathlib.root q = ""
  /\ Pathlib.names q = [Pathlib.stem (Path s) +:+ sfx].
Proof.
  intros Hs. destruct (Path_component s Hs) as [Hroot Hnames].
  unfold Pathlib.with_suffix.
  destruct (Str.contains "/" sfx); [done|].
  destruct (_ || _); [done|].
  case_bool_decide as Hname; [done|].
  assert (Pathlib.names (Path s) = [s]) as Hn.
  { destruct Hnames as [?|Hn]; [done|].
    unfold Pathlib.name in Hname. by rewrite Hn in Hname. }
  rewrite Hn, Hroot. intros [= <-]. split; [done|].
  cbn [Pathlib.names removelast app]. f_equal.
  unfold Pathlib.suffix, Pathlib.stem.
  destruct (Pathlib.suffix_index _) as [i|] eqn:Hi.
  - unfold Pathlib.suffix_index in Hi.
    destruct (Str.rfind _ _) as [j|]; [|done].
    destruct (bool_decide (0 < j)%nat) eqn:H0; [|done].
    destruct (bool_decide (j < _ - 1)%nat) eqn:H1; [|done].
    injection Hi as ->.
    apply bool_decide_eq_true_1 in H0, H1.
    rewrite bool_decide_eq_false_2.
    + rewrite length_drop_str. f_equal. f_equal. lia.
    + intros Hd. apply (f_equal String.length) in Hd.
      rewrite length_drop_str in Hd. simpl in Hd. lia.
  - by rewrite bool_decide_eq_true_2.
Qed.

(** Components of a parsed path are neither empty nor a single dot. *)
Lemma Path_names_proper s :
  Forall (fun x => x <> "" /\ x <> ".") (Pathlib.names (Path s)).
Proof.
  unfold Pathlib.Path. cbn [Pathlib.names].
  induction (Str.split "/" s) as [|x l IH]; [constructor|].
  rewrite filter_cons. case_decide; [by constructor|done].
Qed.

Lemma split_app_sep c x s :
  Str.contains c x = false -> Str.split c (x +:+ String c s) = x :: Str.split c s.
Proof.
  induction x as [|a x IH]; intros Hx.
  - rewrite app_nil_l_str. cbn [Str.split]. by rewrite decide_True.
  - cbn [Str.contains] in Hx. destruct (decide (a = c)) as [|Hne]; [done|].
    rewrite app_cons. cbn [Str.split]. rewrite decide_False by done.
    by rewrite (IH Hx).
Qed.

(** [split] undoes [join] on pieces that are free of the separator. *)
Lemma split_join c x l :
  Forall (fun s => Str.contains c s = false) (x :: l) ->
  Str.split c (Str.join (String c "") (x :: l)) = x :: l.
Proof.
  revert x. induction l as [|y l IH]; intros x Hall.
  - apply split_no_sep. by apply Forall_inv in Hall.
  - apply Forall_cons_1 in Hall as [Hx Hall].
    change (Str.join (String c "") (x :: y :: l))
      with (x +:+ String c (Str.join (String c "") (y :: l))).
    by rewrite (split_app_sep _ _ _ Hx), (IH y Hall).
Qed.


(** ** The text the cache key is the digest of *)



Lemma options_ok_int options k v :
  options_ok options ->
  k = "page-index" \/ k = "export-scale" \/ k = "export-width" \/ k = "export-height" ->
  options !! k = Some v -> exists n, v = PInt n /\ 0 <= n.
Proof.
  intros Hok Hk Hv. specialize (Hok k v Hv).
  destruct Hk as [->|[->|[->| ->]]]; destruct v; try discriminate;
    exists n; (split; [done|]); vm_compute in Hok; destruct n; done.
Qed.



Lemma page_index_text options :
  options_ok options ->
  exists n, dict_get_or options "page-index" (PInt 0) = PInt n.
Proof.
  intros Hok. unfold dict_get_or.
  destruct (options !! "page-index") as [v|] eqn:Hv; [|by exists 0].
  destruct (options_ok_int options "page-index" v) as (n & -> & _); [done|tauto|done|].
  by exists n.
Qed.

Lemma prepare_values builder options in_filename dflt l :
  prepare builder options in_filename dflt = Ok l ->
  values l = unique_values (input_relpath l) (page_index l)
               (float_str (scale_value l)) (transparent l) options
  /\ page_index l = py_str (dict_get_or options "page-index" (PInt 0))
  /\ Pathlib.relative_to (Path in_filename) (Path (srcdir builder)) = Ok (input_relpath l)
  /\ truediv_100 (dict_get_or options "export-scale"
                    (PInt (drawio_default_export_scale (config builder))))
     = Ok (scale_value l)
  /\ transparent l = dict_get_or options "transparency"
                       (PBool (drawio_default_transparency (config builder)))
  /\ input_abspath l = Path in_filename
  /\ input_stem l = Pathlib.stem (Path in_filename)
  /\ output_format l = py_or (dict_get options "format") (PStr dflt).
Proof.
  unfold prepare. intros H.
  destruct (truediv_100 _) as [n|e]; [|done].
  destruct (Pathlib.relative_to _ _) as [rel|e]; [|done].
  by injection H as <-.
Qed.

Lemma unique_values_eq rel page scale transp options :
  unique_values rel page scale transp options
  = Pathlib.path_str rel
    :: [page; scale; if truthy transp then "true" else "false";
        py_str (dict_get options "export-height");
        py_str (dict_get options "export-width")].
Proof. reflexivity. Qed.



Lemma hex_digit_not_slash x : Str.hex_digit x <> "/"%char.
Proof.
  unfold Str.hex_digit. generalize (Z.to_nat (x mod 16)). intros n.
  do 17 (destruct n as [|n]; [done|]). done.
Qed.

Lemma contains_of_list c l :
  Forall (fun a => a <> c) l -> Str.contains c (string_of_list_ascii l) = false.
Proof.
  induction 1 as [|a l Ha Hl IH]; [done|].
  cbn [string_of_list_ascii Str.contains]. by rewrite decide_False.
Qed.

Lemma hex32_slash_free x : Str.contains "/" (SHA1.hex32 x) = false.
Proof.
  unfold SHA1.hex32. apply contains_of_list, Forall_fmap, Forall_forall.
  intros i _. apply hex_digit_not_slash.
Qed.

Lemma hexdigest_slash_free s : Str.contains "/" (SHA1.hexdigest s) = false.
Proof.
  unfold SHA1.hexdigest. destruct (foldl _ _ _) as [[[[h0 h1] h2] h3] h4].
  by rewrite !contains_app, !hex32_slash_free.
Qed.

(** The export directory is the source directory, [.drawio] and the key. *)
Lemma export_dir_shape srcdir values :
  Pathlib.root (export_dir_of srcdir (sha_key values)) = Pathlib.root (Path srcdir)
  /\ Pathlib.names (export_dir_of srcdir (sha_key values))
     = Pathlib.names (Path srcdir)
       ++ ".drawio" :: Pathlib.names (Path (sha_key values)).
Proof.
  unfold export_dir_of, sha_key.
  destruct (Path_component _ (hexdigest_slash_free (hash_key values))) as [Hr _].
  rewrite (joinpath_relative _ (Path (SHA1.hexdigest _))) by done.
  rewrite (joinpath_relative _ (Path ".drawio")) by done.
  cbn [Pathlib.root Pathlib.names]. split; [done|].
  rewrite <- app_assoc. done.
Qed.

(** What [export_target] computes: the only exceptions are those of the
    format and of [with_suffix]; the export path is the export directory
    followed by one file name. *)
Lemma export_target_Ok builder l in_filename fmt export_path export_relpath :
  input_stem l = Pathlib.stem (Path in_filename) ->
  export_target builder l = Ok (fmt, export_path, export_relpath) ->
  output_format l = PStr fmt
  /\ Pathlib.root export_path = Pathlib.root (Path (srcdir builder))
  /\ Pathlib.names export_path
     = Pathlib.names (export_dir_of (srcdir builder) (sha_key (values l)))
       ++ [Pathlib.stem (Path (input_stem l)) +:+ "." +:+ fmt]
  /\ parent export_path = export_dir_of (srcdir builder) (sha_key (values l)).
Proof.
  intros Hstem. unfold export_target.
  destruct (output_format l) as [| | |s]; try done. simpl.
  destruct (Pathlib.with_suffix _ _) as [filename|] eqn:Hw; [|done].
  apply with_suffix_component in Hw as [Hroot Hnames];
    [|rewrite Hstem; apply stem_slash_free].
  destruct (Pathlib.relative_to _ _); [|done]. intros [= <- <- <-].
  split; [done|].
  destruct (export_dir_shape (srcdir builder) (values l)) as [Hdr Hdn].
  rewrite (joinpath_relative _ filename) by done.
  unfold parent. cbn [Pathlib.root Pathlib.names]. rewrite Hnames, removelast_last.
  split; [done|]. split; [done|].
  by destruct (export_dir_of _ _).
Qed.

(** A request with a file name that has a stem and with a format without a
    slash gets an export path: nothing in [export_target] raises. *)
Lemma export_target_succeeds builder l in_filename fmt :
  input_stem l = Pathlib.stem (Path in_filename) ->
  output_format l = PStr fmt ->
  Str.contains "/" fmt = false -> fmt <> "" ->
  input_stem l <> "" -> input_stem l <> "." ->
  exists export_path export_relpath,
    export_target builder l = Ok (fmt, export_path, export_relpath).
Proof.
  intros Hstem Hfmt Hslash Hne Hs1 Hs2. unfold export_target. rewrite Hfmt. simpl.
  assert (Str.contains "/" (input_stem l) = false) as Hsf
    by (rewrite Hstem; apply stem_slash_free).
  destruct (Path_component _ Hsf) as [Hroot Hnames].
  assert (Pathlib.names (Path (input_stem l)) = [input_stem l]) as Hn.
  { unfold Pathlib.Path. simpl. rewrite (split_no_sep _ _ Hsf).
    rewrite filter_cons, filter_nil. by rewrite decide_True. }
  destruct (Pathlib.with_suffix _ _) as [filename|e] eqn:Hw.
  - pose proof Hw as Hw'.
    apply with_suffix_component in Hw' as [Hfr Hfn]; [|done].
    destruct (export_dir_shape (srcdir builder) (values l)) as [Hdr Hdn].
    destruct (Pathlib.relative_to _ _) as [rel|e] eqn:Hrel; [by eauto|].
    exfalso. assert (exists msg, Pathlib.relative_to
      (export_dir_of (srcdir builder) (sha_key (values l)) // filename)
      (Path (srcdir builder)) = Raise (ValueError msg)) as Hex.
    { unfold Pathlib.relative_to in *. destruct (if decide _ then _ else _); [done|].
      by eexists. }
    apply relative_to_Raise in Hex. apply Hex.
    rewrite (joinpath_relative _ filename) by done.
    cbn [Pathlib.root Pathlib.names]. rewrite Hdr, Hdn. split; [done|].
    rewrite <- app_assoc. by eexists.
  - exfalso. revert Hw. unfold Pathlib.with_suffix.
    rewrite app_cons, app_nil_l_str.
    assert (Str.contains "/" (String "." fmt) = false) as ->
      by (cbn [Str.contains]; by rewrite decide_False).
    rewrite (bool_decide_eq_false_2 (String "." fmt = ".")) by congruence.
    rewrite (bool_decide_eq_false_2 (String "." fmt = "")) by done.
    assert (Str.starts_with "." (String "." fmt) = true) as -> by done.
    assert (Pathlib.name (Path (input_stem l)) = input_stem l) as Hname
      by (unfold Pathlib.name; by rewrite Hn).
    rewrite (bool_decide_eq_false_2 (Pathlib.name _ = "")) by congruence.
    done.
Qed.

(** A one-component path without a suffix is its own stem. *)
Lemma stem_without_suffix s :
  Str.contains "/" s = false -> s <> "" -> s <> "." ->
  Pathlib.suffix (Path s) = "" -> Pathlib.stem (Path s) = s.
Proof.
  intros Hs H1 H2. unfold Pathlib.suffix, Pathlib.stem.
  assert (Pathlib.name (Path s) = s) as ->.
  { unfold Pathlib.name, Pathlib.Path. cbn [Pathlib.names].
    rewrite (split_no_sep _ _ Hs), filter_cons, filter_nil.
    by rewrite decide_True. }
  destruct (Pathlib.suffix_index s) as [i|] eqn:Hi; [|done].
  intros Hd. exfalso. unfold Pathlib.suffix_index in Hi.
  destruct (Str.rfind _ _) as [j|]; [|done].
  destruct (bool_decide (0 < j)%nat) eqn:H0; [|done].
  destruct (bool_decide (j < _ - 1)%nat) eqn:H3; [|done].
  injection Hi as ->. apply bool_decide_eq_true_1 in H3.
  apply (f_equal String.length) in Hd. rewrite length_drop_str in Hd.
  simpl in Hd. lia.
Qed.

(** ** Effects of the primitives *)

(** Under the ["auto"] setting the decision is: Linux, and no non-empty
    [DISPLAY] in the environment. *)
Lemma is_headless_auto cfg w :
  drawio_headless cfg = PStr "auto" ->
  is_headless cfg w
  = (Ok (PBool (bool_decide (system w = "Linux") && negb (has_display w))), w).
Proof.
  intros Hauto. cbv [is_headless bind gets getenv ret has_display]. rewrite Hauto.
  rewrite bool_decide_eq_true_2 by done.
  destruct (bool_decide (system w = "Linux")); [|done]. simpl.
  destruct (environ w !! "DISPLAY") as [v|]; simpl; [|done].
  by destruct (bool_decide (v = "")).
Qed.

Lemma is_headless_reads cfg w :
  exists v, is_headless cfg w = (Ok v, w) /\ truthy v = headless_decision cfg w.
Proof.
  unfold headless_decision.
  destruct (decide (drawio_headless cfg = PStr "auto")) as [Hauto|Hauto].
  - rewrite is_headless_auto by done. eauto.
  - cbv [is_headless ret]. rewrite bool_decide_eq_false_2 by done.
    destruct (drawio_headless cfg); eauto.
Qed.

Lemma renderer_env_eq cfg w : renderer_env cfg w = (Ok (renderer_env_in cfg w), w).
Proof.
  unfold renderer_env, renderer_env_in, bind, gets.
  destruct (is_headless_reads cfg w) as (v & -> & <-).
  by destruct (truthy v).
Qed.

(** [ensuredir] leaves alone what exists and what is not on its way. *)
Lemma mkdirs_lookup_Some t fs ds q x :
  fs !! q = Some x -> foldl (mkdir_if_missing t) fs ds !! q = Some x.
Proof.
  revert fs. induction ds as [|d ds IH]; intros fs Hq; [done|]. simpl.
  apply IH. unfold mkdir_if_missing. destruct (fs !! d) eqn:Hd; [done|].
  rewrite lookup_insert_ne; [done|congruence].
Qed.

Lemma mkdirs_lookup_other t fs ds q :
  q ∉ ds -> foldl (mkdir_if_missing t) fs ds !! q = fs !! q.
Proof.
  revert fs. induction ds as [|d ds IH]; intros fs Hq; [done|]. simpl.
  apply not_elem_of_cons in Hq as [Hne Hq]. rewrite IH by done.
  unfold mkdir_if_missing. destruct (fs !! d); [done|].
  by rewrite lookup_insert_ne.
Qed.

Lemma ancestors_shorter p q :
  q ∈ ancestors p -> (List.length (Pathlib.names q) <= List.length (Pathlib.names p))%nat.
Proof.
  unfold ancestors. intros (k & -> & Hk)%list_elem_of_fmap.
  simpl. rewrite length_take. lia.
Qed.

Lemma is_fresh_eq export_path input w :
  is_fresh export_path input w
  = (match files w !! export_path with
     | None => Ok false
     | Some art =>
         match files w !! input with
         | None => Raise (FileNotFoundError (Pathlib.path_str input))
         | Some src => Ok (st_mtime src <? st_mtime art)
         end
     end, w).
Proof.
  unfold is_fresh, bind, path_exists, gets, stat_mtime, ret.
  destruct (files w !! export_path) as [art|] eqn:Ha.
  - rewrite bool_decide_eq_true_2 by done. rewrite Ha.
    by destruct (files w !! input).
  - rewrite bool_decide_eq_false_2; [done|]. by intros [? ?].
Qed.

(** One run of the renderer, spelled out: the command and environment, the
    recorded call, and the result for each thing the process can do. *)
Lemma render_eq cfg options l fmt export_path export_relpath in_filename w :
  render cfg options l fmt export_path export_relpath in_filename w
  = let args := command_line cfg (system w) options l fmt export_path in_filename in
    let env := renderer_env_in cfg w in
    let w1 := add_spawned (args, env) w in
    match exec w args env (files w) with
    | LaunchFailed exc =>
        (Raise (DrawIOError (launch_failure_message args exc)), w1)
    | Exited returncode stdout stderr fs =>
        if negb (returncode =? 0)
        then (Raise (DrawIOError (exit_failure_message args stderr stdout)),
              set_files fs w1)
        else if bool_decide (is_Some (fs !! export_path))
        then (Ok export_path,
              add_log ("(drawio) '" +:+ Pathlib.path_str (input_relpath l) +:+ "' -> '"
                       +:+ Pathlib.path_str export_relpath +:+ "'")
                      (set_files fs w1))
        else (Raise (DrawIOError (output_missing_message stderr stdout)),
              set_files fs w1)
    end.
Proof.
  unfold render, bind at 1 2. unfold gets at 1. rewrite renderer_env_eq.
  unfold bind at 1, subprocess_run.
  destruct (exec w _ _ _) as [exc|rc out err fs]; [done|].
  destruct (negb (rc =? 0)); [done|].
  cbv [bind path_exists gets logger_info modify ret raise]. simpl.
  by destruct (bool_decide (is_Some (fs !! export_path))).
Qed.

(** The whole export, spelled out. *)
Lemma drawio_export_eq builder options in_filename dflt w :
  drawio_export builder options in_filename dflt w
  = match prepare builder options in_filename dflt with
    | Raise e => (Raise e, w)
    | Ok l =>
        let export_dir := export_dir_of (srcdir builder) (sha_key (values l)) in
        let w1 := set_files (foldl (mkdir_if_missing (now w)) (files w)
                                   (ancestors export_dir)) w in
        match export_target builder l with
        | Raise e => (Raise e, w1)
        | Ok (fmt, export_path, export_relpath) =>
            match files w1 !! export_path with
            | None =>
                render (config builder) options l fmt export_path export_relpath
                       in_filename w1
            | Some art =>
                match files w1 !! input_abspath l with
                | None =>
                    (Raise (FileNotFoundError (Pathlib.path_str (input_abspath l))), w1)
                | Some src =>
                    if st_mtime src <? st_mtime art then (Ok export_path, w1)
                    else render (config builder) options l fmt export_path
                                export_relpath in_filename w1
                end
            end
        end
    end.
Proof.
  unfold drawio_export, bind at 1, lift at 1.
  destruct (prepare _ _ _ _) as [l|e]; [|done].
  unfold bind at 1, ensuredir, modify. unfold bind at 1, lift at 1.
  destruct (export_target _ _) as [[[fmt ep] rel]|e]; [|done].
  unfold bind at 1. rewrite is_fresh_eq. cbn [files set_files].
  destruct (_ !! ep) as [art|]; [|done].
  destruct (_ !! input_abspath l) as [src|]; [|done].
  by destruct (st_mtime src <? st_mtime art).
Qed.

(** A render records exactly one call of the renderer. *)
Lemma render_spawned cfg options l fmt export_path export_relpath in_filename w :
  spawned (render cfg options l fmt export_path export_relpath in_filename w).2
  = (command_line cfg (system w) options l fmt export_path in_filename,
     renderer_env_in cfg w) :: spawned w.
Proof.
  rewrite render_eq. cbv zeta.
  destruct (exec w _ _ _) as [exc|rc out err fs]; [done|].
  destruct (negb (rc =? 0)); [done|].
  by destruct (bool_decide _).
Qed.

(** ** Claims about the cache key *)



(** C2: the cache key is computed from the path relative to the source
    directory and from the options only: the same relative path under two
    different source directories, with the same options and the same default
    scale and transparency, gets the same key (or the same exception).  No
    absolute path, working directory or other part of the world enters
    [cache_key]. *)
Theorem cache_key_location_independent b1 b2 options f1 f2 d1 d2 rel :
  drawio_default_export_scale (config b1) = drawio_default_export_scale (config b2) ->
  drawio_default_transparency (config b1) = drawio_default_transparency (config b2) ->
  Pathlib.root rel = "" ->
  Path f1 = Path (srcdir b1) // rel ->
  Path f2 = Path (srcdir b2) // rel ->
  cache_key b1 options f1 d1 = cache_key b2 options f2 d2.
Proof.
  intros Hscale Htransp Hrel Hf1 Hf2. unfold cache_key, prepare.
  rewrite Hscale, Htransp, Hf1, Hf2, !relative_to_joinpath by done.
  by destruct (truediv_100 _).
Qed.

Lemma cache_key_location_independent_witness :
  cache_key example_builder {[ "export-scale" := PInt 50 ]} "/docs/img/a.drawio" "png"
  = cache_key {| config := example_config; srcdir := "/tmp/pytest-0/root" |}
              {[ "export-scale" := PInt 50 ]} "/tmp/pytest-0/root/img/a.drawio" "svg".
Proof.
  apply (cache_key_location_independent example_builder
           {| config := example_config; srcdir := "/tmp/pytest-0/root" |} _ _ _ _ _
           (Path "img/a.drawio")); reflexivity.
Defined.




(** ** Claims about the cache look-up *)

Lemma export_path_not_ancestor builder l in_filename fmt export_path export_relpath :
  input_stem l = Pathlib.stem (Path in_filename) ->
  export_target builder l = Ok (fmt, export_path, export_relpath) ->
  export_path ∉ ancestors (export_dir_of (srcdir builder) (sha_key (values l))).
Proof.
  intros Hstem Ht Hin.
  apply (export_target_Ok _ _ _ _ _ _ Hstem) in Ht as (_ & _ & Hn & _).
  apply ancestors_shorter in Hin. rewrite Hn, length_app in Hin. simpl in Hin. lia.
Qed.

(** C3: for a source file that exists, the export is answered from the cache
    (the export path is returned and the renderer is not called) exactly when
    the export file exists and its modification time is strictly greater than
    the source's; otherwise the renderer is called, once. *)
Theorem cache_hit_iff_fresh builder options in_filename dflt w l
    fmt export_path export_relpath src :
  prepare builder options in_filename dflt = Ok l ->
  export_target builder l = Ok (fmt, export_path, export_relpath) ->
  files w !! Path in_filename = Some src ->
  (fresh_in w export_path src <->
   (drawio_export builder options in_filename dflt w).1 = Ok export_path
   /\ spawned (drawio_export builder options in_filename dflt w).2 = spawned w)
  /\ (~ fresh_in w export_path src ->
      exists call, spawned (drawio_export builder options in_filename dflt w).2
                   = call :: spawned w).
Proof.
  intros Hp Ht Hsrc.
  destruct (prepare_values _ _ _ _ _ Hp) as (_ & _ & _ & _ & _ & Habs & Hstem & _).
  pose proof (export_path_not_ancestor _ _ _ _ _ _ Hstem Ht) as Hanc.
  rewrite drawio_export_eq, Hp. cbv zeta. rewrite Ht. cbn [files set_files].
  rewrite (mkdirs_lookup_other _ _ _ _ Hanc).
  rewrite Habs, (mkdirs_lookup_Some _ _ _ _ _ Hsrc).
  set (w1 := set_files _ w).
  assert (spawned w1 = spawned w) as Hw1 by done.
  destruct (files w !! export_path) as [art|] eqn:Hart.
  - destruct (Z.ltb_spec (st_mtime src) (st_mtime art)) as [Hlt|Hge].
    + split; [|intros []; by exists art].
      split; [done|]. intros _. by exists art.
    + assert (~ fresh_in w export_path src) as Hnot.
      { intros (art' & Ha & Hlt). rewrite Hart in Ha. injection Ha as <-. lia. }
      split.
      * split; [done|]. intros [_ Hs]. rewrite render_spawned, Hw1 in Hs.
        apply (f_equal List.length) in Hs. simpl in Hs. lia.
      * intros _. rewrite render_spawned, Hw1. by eexists.
  - assert (~ fresh_in w export_path src) as Hnot.
    { intros (art' & Ha & _). by rewrite Hart in Ha. }
    split.
    + split; [done|]. intros [_ Hs]. rewrite render_spawned, Hw1 in Hs.
      apply (f_equal List.length) in Hs. simpl in Hs. lia.
    + intros _. rewrite render_spawned, Hw1. by eexists.
Qed.

Lemma cache_hit_iff_fresh_witness :
  let export_path :=
    Path "/docs/.drawio/f819339468a4e0ea104455cd3755f227620b3de7/a.svg" in
  let src := {| st_mtime := 10; st_isdir := false |} in
  let run := drawio_export example_builder ∅ "/docs/a.drawio" "svg" cached_world in
  (fresh_in cached_world export_path src <->
   run.1 = Ok export_path /\ spawned run.2 = spawned cached_world)
  /\ (~ fresh_in cached_world export_path src ->
      exists call, spawned run.2 = call :: spawned cached_world).
Proof.
  eapply (cache_hit_iff_fresh example_builder ∅ "/docs/a.drawio" "svg" cached_world).
  - reflexivity.
  - vm_compute. reflexivity.
  - vm_compute. reflexivity.
Defined.

(** ** Claims about the renderer invocation *)

Lemma is_prefix_spec p s : is_prefix p s = true <-> exists b, s = p +:+ b.
Proof.
  revert s. induction p as [|a p IH]; intros s.
  - split; [by exists s|done].
  - destruct s as [|c s]; simpl.
    + split; [done|]. by intros [b Hb].
    + rewrite andb_true_iff, bool_decide_eq_true, IH. split.
      * intros [-> [b ->]]. by exists b.
      * intros [b Hb]. rewrite app_cons in Hb. injection Hb as -> ->. eauto.
Qed.

Lemma occurs_spec x s : occurs x s = true <-> includes s x.
Proof.
  unfold includes. induction s as [|c s IH].
  - simpl. rewrite orb_false_r, is_prefix_spec. split.
    + intros [b Hb]. by exists "", b.
    + intros (a & b & Hab). destruct a; [by exists b|done].
  - cbn [occurs]. rewrite orb_true_iff, is_prefix_spec, IH. split.
    + intros [[b Hb]|(a & b & Hab)].
      * by exists "", b.
      * exists (String c a), b. by rewrite Hab.
    + intros (a & b & Hab). destruct a as [|c' a].
      * left. by exists b.
      * right. rewrite app_cons in Hab. injection Hab as -> ->. eauto.
Qed.

Lemma includes_here a x b : includes (a +:+ x +:+ b) x.
Proof. by exists a, b. Qed.

Lemma includes_app_l s t x : includes t x -> includes (s +:+ t) x.
Proof. intros (a & b & ->). exists (s +:+ a), b. by rewrite app_assoc_str. Qed.

Lemma includes_end a x : includes (a +:+ x) x.
Proof. exists a, "". by rewrite app_nil_r_str. Qed.

(** The three messages are told apart by how they begin. *)
Lemma output_missing_is_distinct stderr stdout :
  (forall args e o, output_missing_message stderr stdout <> exit_failure_message args e o)
  /\ (forall args exc, output_missing_message stderr stdout <> launch_failure_message args exc).
Proof.
  split; intros; intros H; apply (f_equal (Str.take 9)) in H;
    unfold output_missing_message, exit_failure_message, launch_failure_message in H;
    rewrite !app_cons in H; cbn [Str.take] in H; discriminate H.
Qed.

(** The first two scenarios of the specification: the first export of
    [a.drawio] as svg calls the renderer and leaves [.drawio/<key>/a.svg];
    the same request again is answered from the cache, with no second call
    and the same path. *)
Example export_twice_renders_once :
  let run1 := drawio_export example_builder {[ "format" := PStr "svg" ]}
                            "/docs/a.drawio" "png" example_world in
  let run2 := drawio_export example_builder {[ "format" := PStr "svg" ]}
                            "/docs/a.drawio" "png" run1.2 in
  run1.1 = Ok (Path "/docs/.drawio/f819339468a4e0ea104455cd3755f227620b3de7/a.svg")
  /\ run2.1 = run1.1
  /\ List.length (spawned run1.2) = 1%nat
  /\ spawned run2.2 = spawned run1.2.
Proof.
  split; [vm_compute; reflexivity|]. split; [vm_compute; reflexivity|].
  split; vm_compute; reflexivity.
Qed.

(** C4: a run of the renderer returns the export path exactly when the
    process exits with status 0 and the export file exists afterwards.  When
    the process exits with status 0 and the file is absent, [DrawIOError] is
    raised with the message "draw.io did not produce an output file", which
    shows the captured stderr and stdout (as Python prints [bytes]) and which
    no non-zero exit and no launch failure produces. *)
Theorem render_succeeds_iff_zero_and_output cfg options l fmt export_path
    export_relpath in_filename w :
  let args := command_line cfg (system w) options l fmt export_path in_filename in
  let outcome := exec w args (renderer_env_in cfg w) (files w) in
  let r := (render cfg options l fmt export_path export_relpath in_filename w).1 in
  (forall p, r = Ok p <->
     p = export_path
     /\ exists stdout stderr fs,
          outcome = Exited 0 stdout stderr fs /\ is_Some (fs !! export_path))
  /\ (forall stdout stderr fs,
        outcome = Exited 0 stdout stderr fs -> fs !! export_path = None ->
        r = Raise (DrawIOError (output_missing_message stderr stdout))
        /\ includes (output_missing_message stderr stdout) (Bytes.repr stderr)
        /\ includes (output_missing_message stderr stdout) (Bytes.repr stdout)
        /\ (forall args' e o,
              output_missing_message stderr stdout <> exit_failure_message args' e o)
        /\ (forall args' exc,
              output_missing_message stderr stdout <> launch_failure_message args' exc)).
Proof.
  intros args outcome r. subst r. rewrite render_eq. cbv zeta.
  fold args. fold outcome. split.
  - intros p. destruct outcome as [exc|rc out err fs] eqn:Ho.
    + split; [done|]. by intros (_ & ? & ? & ? & ? & _).
    + destruct (Z.eqb_spec rc 0) as [->|Hrc]; simpl.
      * case_bool_decide as Hex; simpl.
        -- split; [intros [= <-]; by eauto 10|by intros [-> _]].
        -- split; [done|]. intros (_ & ? & ? & ? & [= <- <- <-] & ?). done.
      * split; [done|]. intros (_ & ? & ? & ? & [= ? _] & _). done.
  - intros out err fs -> Hnone. simpl.
    rewrite bool_decide_eq_false_2 by (rewrite Hnone; by intros [? ?]). simpl.
    split; [done|]. unfold output_missing_message at 2 4.
    split; [|split; [|apply output_missing_is_distinct]].
    + do 3 apply includes_app_l. apply includes_here.
    + do 7 apply includes_app_l. apply includes_end.
Qed.

(** ** Claims about the headless decision *)

Lemma on_config_inited_eq cfg w :
  on_config_inited cfg w
  = if headless_decision cfg w then
      let cmd := ["Xvfb"; ":" +:+ pretty X_DISPLAY_NUMBER; "-screen"; "0"; "1280x768x16"] in
      let w1 := add_started cmd w in
      match popen w cmd with
      | PopenFailed exc => (Raise (OSError exc), w1)
      | PopenStarted pid poll stdout stderr =>
          match poll with
          | Some _ =>
              (Raise (OSError ("Failed to start Xvfb process" +:+ nl +:+ "[stdout]"
                               +:+ nl +:+ Bytes.repr stdout +:+ nl +:+ "[stderr]"
                               +:+ Bytes.repr stderr)),
               set_xvfb_pid pid w1)
          | None => (Ok tt, set_xvfb_pid pid w1)
          end
      end
    else (Ok tt, add_log "running in non-headless mode, not starting Xvfb" w).
Proof.
  unfold on_config_inited, bind at 1.
  destruct (is_headless_reads cfg w) as (v & -> & <-).
  destruct (truthy v); [|done].
  unfold bind at 1. destruct (popen w _) as [exc|pid poll out err]; [done|].
  by destruct poll.
Qed.

(** C9, as the code has it: under the ["auto"] setting the run is headless
    exactly on Linux with [DISPLAY] unset or empty.  When it is not headless,
    the start-up hook starts no process and records no Xvfb pid, and the
    renderer gets the ambient environment unchanged; when it is headless, the
    hook starts Xvfb and the renderer gets [DISPLAY=:1]. *)
Theorem auto_headless_decision cfg w :
  drawio_headless cfg = PStr "auto" ->
  is_headless cfg w
  = (Ok (PBool (bool_decide (system w = "Linux") && negb (has_display w))), w)
  /\ headless_decision cfg w
     = bool_decide (system w = "Linux") && negb (has_display w)
  /\ (headless_decision cfg w = false ->
      started (on_config_inited cfg w).2 = started w
      /\ xvfb_pid (on_config_inited cfg w).2 = xvfb_pid w
      /\ (on_config_inited cfg w).1 = Ok tt
      /\ renderer_env_in cfg w = environ w)
  /\ (headless_decision cfg w = true ->
      started (on_config_inited cfg w).2
      = ["Xvfb"; ":1"; "-screen"; "0"; "1280x768x16"] :: started w
      /\ renderer_env_in cfg w = <["DISPLAY" := ":1"]> (environ w)).
Proof.
  intros Hauto. pose proof (is_headless_auto cfg w Hauto) as Heq.
  split; [done|]. split.
  { unfold headless_decision. by rewrite Heq. }
  split; intros Hd.
  - rewrite on_config_inited_eq. unfold renderer_env_in. by rewrite Hd.
  - rewrite on_config_inited_eq. unfold renderer_env_in. rewrite Hd. cbv zeta.
    split; [|done].
    destruct (popen w _) as [exc|pid poll out err]; [done|]. by destruct poll.
Qed.

Lemma auto_headless_decision_witness :
  is_headless example_config example_world = (Ok (PBool true), example_world)
  /\ headless_decision example_config example_world = true
  /\ (headless_decision example_config example_world = false ->
      started (on_config_inited example_config example_world).2 = started example_world
      /\ xvfb_pid (on_config_inited example_config example_world).2
         = xvfb_pid example_world
      /\ (on_config_inited example_config example_world).1 = Ok tt
      /\ renderer_env_in example_config example_world = environ example_world)
  /\ (headless_decision example_config example_world = true ->
      started (on_config_inited example_config example_world).2
      = ["Xvfb"; ":1"; "-screen"; "0"; "1280x768x16"] :: started example_world
      /\ renderer_env_in example_config example_world
         = <["DISPLAY" := ":1"]> (environ example_world)).
Proof.
  exact (auto_headless_decision example_config example_world eq_refl).
Defined.

(** C9 as stated fails: with [DISPLAY] set, but to the empty text, the
    decision on Linux is still headless, Xvfb is started and [DISPLAY] is
    overridden. *)
Lemma auto_headless_with_display_set :
  is_Some (environ empty_display_world !! "DISPLAY")
  /\ (is_headless example_config empty_display_world).1 = Ok (PBool true)
  /\ started (on_config_inited example_config empty_display_world).2
     = [["Xvfb"; ":1"; "-screen"; "0"; "1280x768x16"]]
  /\ renderer_env_in example_config empty_display_world !! "DISPLAY" = Some ":1".
Proof. vm_compute. eauto. Qed.

(** ** Claims about defaults *)

Lemma render_ext cfg o1 o2 l fmt export_path export_relpath in_filename w :
  extra_args_of o1 (transparent l) = extra_args_of o2 (transparent l) ->
  render cfg o1 l fmt export_path export_relpath in_filename w
  = render cfg o2 l fmt export_path export_relpath in_filename w.
Proof. intros H. rewrite !render_eq. unfold command_line. by rewrite H. Qed.

(** The export reads the options only through the six names it asks for. *)
Lemma drawio_export_ext builder o1 o2 in_filename dflt w :
  prepare builder o1 in_filename dflt = prepare builder o2 in_filename dflt ->
  (forall t, extra_args_of o1 t = extra_args_of o2 t) ->
  drawio_export builder o1 in_filename dflt w
  = drawio_export builder o2 in_filename dflt w.
Proof.
  intros Hp He. rewrite !drawio_export_eq, Hp. clear Hp.
  destruct (prepare builder o2 in_filename dflt) as [l|e]; [|done]. cbv zeta.
  destruct (export_target _ _) as [[[fmt ep] rel]|e]; [|done].
  by rewrite !(render_ext _ o1 o2) by apply He.
Qed.

Lemma prepare_ext builder o1 o2 in_filename dflt :
  (forall k, k <> "export-scale" -> k <> "transparency" -> o1 !! k = o2 !! k) ->
  dict_get_or o1 "export-scale" (PInt (drawio_default_export_scale (config builder)))
  = dict_get_or o2 "export-scale" (PInt (drawio_default_export_scale (config builder))) ->
  dict_get_or o1 "transparency" (PBool (drawio_default_transparency (config builder)))
  = dict_get_or o2 "transparency" (PBool (drawio_default_transparency (config builder))) ->
  prepare builder o1 in_filename dflt = prepare builder o2 in_filename dflt
  /\ forall t, extra_args_of o1 t = extra_args_of o2 t.
Proof.
  intros Hk Hs Ht. split.
  - unfold prepare. rewrite Hs, Ht. unfold unique_values, dict_get_or, dict_get.
    rewrite (Hk "page-index"), (Hk "format") by done.
    simpl. by rewrite (Hk "export-height"), (Hk "export-width") by done.
  - intros t. unfold extra_args_of. simpl.
    by rewrite (Hk "export-height"), (Hk "export-width") by done.
Qed.

(** C10: giving [export-scale] the builder's default scale, or
    [transparency] the builder's default transparency, is the same request as
    leaving the option out: the same cache key, and the same run of
    [drawio_export] in every world (the same result, the same renderer
    command).  *)
Theorem default_options_equivalent builder options in_filename dflt w :
  let scale := PInt (drawio_default_export_scale (config builder)) in
  let transp := PBool (drawio_default_transparency (config builder)) in
  (cache_key builder (<["export-scale" := scale]> options) in_filename dflt
   = cache_key builder (delete "export-scale" options) in_filename dflt
   /\ drawio_export builder (<["export-scale" := scale]> options) in_filename dflt w
      = drawio_export builder (delete "export-scale" options) in_filename dflt w)
  /\ (cache_key builder (<["transparency" := transp]> options) in_filename dflt
      = cache_key builder (delete "transparency" options) in_filename dflt
      /\ drawio_export builder (<["transparency" := transp]> options) in_filename dflt w
         = drawio_export builder (delete "transparency" options) in_filename dflt w).
Proof.
  intros scale transp. split.
  - destruct (prepare_ext builder (<["export-scale" := scale]> options)
                (delete "export-scale" options) in_filename dflt) as [Hp He].
    + intros k Hk _. by rewrite lookup_insert_ne, lookup_delete_ne.
    + unfold dict_get_or. by rewrite lookup_insert_eq, lookup_delete_eq.
    + unfold dict_get_or. by rewrite lookup_insert_ne, lookup_delete_ne.
    + split; [unfold cache_key; by rewrite Hp|by apply drawio_export_ext].
  - destruct (prepare_ext builder (<["transparency" := transp]> options)
                (delete "transparency" options) in_filename dflt) as [Hp He].
    + intros k _ Hk. by rewrite lookup_insert_ne, lookup_delete_ne.
    + unfold dict_get_or. by rewrite lookup_insert_ne, lookup_delete_ne.
    + unfold dict_get_or. by rewrite lookup_insert_eq, lookup_delete_eq.
    + split; [unfold cache_key; by rewrite Hp|by apply drawio_export_ext].
Qed.

(** ** Claims about the renderer command and its error messages *)

Lemma escape_plain s : plain s = true -> Bytes.escape "'" s = s.
Proof.
  induction s as [|c s IH]; [done|]. cbn [plain Bytes.escape].
  intros [Hc Hs]%andb_true_iff. rewrite (IH Hs). clear IH Hs.
  unfold plain_char in Hc. unfold Bytes.escape_byte.
  repeat (apply andb_true_iff in Hc as [Hc ?]).
  repeat match goal with
         | H : negb (bool_decide _) = true |- _ =>
             apply negb_true_iff, bool_decide_eq_false_1 in H
         end.
  rewrite !bool_decide_eq_false_2 by done. simpl.
  rewrite (bool_decide_eq_false_2 (c = "009"%char))
    by (intros ->; vm_compute in Hc; done).
  rewrite (bool_decide_eq_false_2 (c = "010"%char))
    by (intros ->; vm_compute in Hc; done).
  rewrite (bool_decide_eq_false_2 (c = "013"%char))
    by (intros ->; vm_compute in Hc; done).
  cbv zeta.
  replace (Z.of_N (N_of_ascii c) <? 32) with false by lia.
  replace (127 <=? Z.of_N (N_of_ascii c)) with false by lia.
  done.
Qed.

Lemma plain_no_quote s : plain s = true -> Str.contains "'" s = false.
Proof.
  induction s as [|c s IH]; [done|]. cbn [plain Str.contains].
  intros [Hc Hs]%andb_true_iff. rewrite (IH Hs).
  unfold plain_char in Hc. repeat (apply andb_true_iff in Hc as [Hc ?]).
  destruct (decide (c = "'"%char)) as [->|]; [|done].
  by rewrite bool_decide_eq_true_2 in H0.
Qed.

(** Plain output is shown as it is, between [b'] and [']. *)
Lemma repr_plain s : plain s = true -> Bytes.repr s = "b'" +:+ s +:+ "'".
Proof.
  intros Hs. unfold Bytes.repr, Bytes.quote.
  rewrite (plain_no_quote s Hs). simpl. by rewrite (escape_plain s Hs).
Qed.

(** C5, as the code has it: a launch failure is raised with a message that
    holds the full command line and the operating system's error text; a
    non-zero exit with one that holds the full command line and the captured
    stderr and stdout as Python prints [bytes]; a missing output with one
    that holds the captured stderr and stdout in that form.  Output of plain
    printable characters is held as it is. *)
Theorem fatal_error_messages cfg options l fmt export_path export_relpath
    in_filename w :
  let args := command_line cfg (system w) options l fmt export_path in_filename in
  let outcome := exec w args (renderer_env_in cfg w) (files w) in
  let r := (render cfg options l fmt export_path export_relpath in_filename w).1 in
  (forall exc, outcome = LaunchFailed exc ->
     exists msg, r = Raise (DrawIOError msg)
                 /\ includes msg (Str.join " " args) /\ includes msg exc)
  /\ (forall rc stdout stderr fs, outcome = Exited rc stdout stderr fs -> rc <> 0 ->
        exists msg, r = Raise (DrawIOError msg)
                    /\ includes msg (Str.join " " args)
                    /\ includes msg (Bytes.repr stderr)
                    /\ includes msg (Bytes.repr stdout))
  /\ (forall stdout stderr fs, outcome = Exited 0 stdout stderr fs ->
        fs !! export_path = None ->
        exists msg, r = Raise (DrawIOError msg)
                    /\ includes msg (Bytes.repr stderr)
                    /\ includes msg (Bytes.repr stdout))
  /\ (forall s, plain s = true -> includes (Bytes.repr s) s).
Proof.
  intros args outcome r. subst r. rewrite render_eq. cbv zeta.
  fold args. fold outcome. repeat split.
  - intros exc ->. eexists. split; [done|]. unfold launch_failure_message. split.
    + apply includes_here.
    + do 3 apply includes_app_l. apply includes_end.
  - intros rc out err fs -> Hrc. apply Z.eqb_neq in Hrc. rewrite Hrc. simpl.
    eexists. split; [done|]. unfold exit_failure_message. repeat split.
    + apply includes_here.
    + do 5 apply includes_app_l. apply includes_here.
    + do 9 apply includes_app_l. apply includes_end.
  - intros out err fs -> Hnone. simpl.
    rewrite bool_decide_eq_false_2 by (rewrite Hnone; by intros [? ?]).
    eexists. split; [done|]. unfold output_missing_message. split.
    + do 3 apply includes_app_l. apply includes_here.
    + do 7 apply includes_app_l. apply includes_end.
  - intros s Hs. rewrite (repr_plain s Hs). apply includes_here.
Qed.

(** C5 as stated fails: the captured output is shown as Python prints
    [bytes], so output of more than one line is not in the message as it
    is. *)
Lemma nonzero_exit_output_not_verbatim :
  exists msg,
    (drawio_export example_builder ∅ "/docs/a.drawio" "png" failing_world).1
    = Raise (DrawIOError msg)
    /\ ~ includes msg ("Error: no display" +:+ nl +:+ "Aborted")
    /\ includes msg "b'Error: no display\nAborted'".
Proof.
  eexists. split; [vm_compute; reflexivity|]. split.
  - rewrite <- occurs_spec. vm_compute. discriminate.
  - apply occurs_spec. vm_compute. reflexivity.
Qed.

(** The message for a missing output does not hold the command line, unlike
    the two other messages. *)
Lemma output_missing_without_command_line :
  match drawio_export example_builder ∅ "/docs/a.drawio" "png" silent_world with
  | (Raise (DrawIOError msg), w') =>
      match spawned w' with
      | [(args, _)] =>
          bool_decide (msg = output_missing_message "" "")
          && negb (occurs (Str.join " " args) msg)
          && negb (occurs "/opt/draw.io/drawio" msg)
      | _ => false
      end
  | _ => false
  end = true.
Proof. vm_compute. reflexivity. Qed.

(** ** Claims about the scale argument *)

Lemma join_two_contains c x y l :
  Str.contains c (Str.join (String c "") (x :: y :: l)) = true.
Proof.
  change (Str.join (String c "") (x :: y :: l))
    with (x +:+ String c "" +:+ Str.join (String c "") (y :: l)).
  rewrite !contains_app, contains_cons_same. by rewrite orb_true_r.
Qed.

(** An export path is written with a slash. *)
Lemma export_path_has_slash builder l in_filename fmt export_path export_relpath :
  input_stem l = Pathlib.stem (Path in_filename) ->
  export_target builder l = Ok (fmt, export_path, export_relpath) ->
  Str.contains "/" (Pathlib.path_str export_path) = true.
Proof.
  intros Hstem Ht.
  apply (export_target_Ok _ _ _ _ _ _ Hstem) in Ht as (_ & _ & Hn & _).
  destruct (export_dir_shape (srcdir builder) (values l)) as [_ Hd].
  rewrite Hd in Hn. unfold Pathlib.path_str. rewrite Hn.
  destruct (Pathlib.names (Path (srcdir builder))) as [|x [|y xs]];
    cbn [app]; rewrite contains_app.
  - destruct (Pathlib.names (Path (sha_key (values l)))); cbn [app];
      by rewrite join_two_contains, orb_true_r.
  - by rewrite join_two_contains, orb_true_r.
  - by rewrite join_two_contains, orb_true_r.
Qed.




(** The two requests of the specification's example: pdf at 100 % has no
    scale flag, png at 100 % has it. *)
Example command_line_pdf_at_100 :
  (fun r => match r with (_, w) => fst <$> spawned w end)
    (drawio_export example_builder {[ "format" := PStr "pdf" ]} "/docs/a.drawio" "png"
                   example_world)
  = [["/opt/draw.io/drawio"; "--export"; "--crop"; "--page-index"; "0";
      "--format"; "pdf"; "--output";
      "/docs/.drawio/f819339468a4e0ea104455cd3755f227620b3de7/a.pdf";
      "/docs/a.drawio"]].
Proof. vm_compute. reflexivity. Qed.

Example command_line_png_at_100 :
  (fun r => match r with (_, w) => fst <$> spawned w end)
    (drawio_export example_builder {[ "format" := PStr "png" ]} "/docs/a.drawio" "png"
                   example_world)
  = [["/opt/draw.io/drawio"; "--export"; "--crop"; "--page-index"; "0";
      "--scale"; "1.0"; "--format"; "png"; "--output";
      "/docs/.drawio/f819339468a4e0ea104455cd3755f227620b3de7/a.png";
      "/docs/a.drawio"]].
Proof. vm_compute. reflexivity. Qed.

(** ** Claims about the cache entry *)

(** C8, as the code has it: the export of a request lies in the directory
    named by its cache key; its name is the stem of the source's stem
    followed by a dot and the format, which is the source's stem, the dot and
    the format when that stem has no suffix of its own.  The format is not
    part of the key: two requests for one source with the same key share the
    directory, and they share the file exactly when they ask for the same
    format. *)
Theorem export_path_by_key_and_format builder o1 o2 f1 f2 d1 d2 l1 l2
    fmt1 fmt2 p1 p2 r1 r2 :
  prepare builder o1 f1 d1 = Ok l1 ->
  prepare builder o2 f2 d2 = Ok l2 ->
  export_target builder l1 = Ok (fmt1, p1, r1) ->
  export_target builder l2 = Ok (fmt2, p2, r2) ->
  parent p1 = export_dir_of (srcdir builder) (sha_key (values l1))
  /\ Pathlib.name p1
     = Pathlib.stem (Path (Pathlib.stem (Path f1))) +:+ "." +:+ fmt1
  /\ (Pathlib.suffix (Path (Pathlib.stem (Path f1))) = "" ->
      Pathlib.name p1 = Pathlib.stem (Path f1) +:+ "." +:+ fmt1)
  /\ (Path f1 = Path f2 -> sha_key (values l1) = sha_key (values l2) ->
      parent p1 = parent p2 /\ (p1 = p2 <-> fmt1 = fmt2)).
Proof.
  intros Hp1 Hp2 Ht1 Ht2.
  destruct (prepare_values _ _ _ _ _ Hp1) as (_ & _ & _ & _ & _ & _ & Hs1 & _).
  destruct (prepare_values _ _ _ _ _ Hp2) as (_ & _ & _ & _ & _ & _ & Hs2 & _).
  pose proof Ht1 as Ht1'.
  apply (export_target_Ok _ _ _ _ _ _ Hs1) in Ht1 as (_ & Hr1 & Hn1 & Hpar1).
  apply (export_target_Ok _ _ _ _ _ _ Hs2) in Ht2 as (_ & Hr2 & Hn2 & Hpar2).
  assert (Pathlib.name p1
          = Pathlib.stem (Path (Pathlib.stem (Path f1))) +:+ "." +:+ fmt1) as Hname.
  { unfold Pathlib.name. rewrite Hn1, last_last. by rewrite Hs1. }
  split; [done|]. split; [done|]. split.
  { intros Hsfx. rewrite Hname. f_equal.
    apply stem_without_suffix; [apply stem_slash_free| | |done].
    - intros He. revert Ht1'. unfold export_target.
      destruct (concat_operand _); [|done]. rewrite Hs1, He.
      unfold Pathlib.with_suffix. by repeat case_match.
    - intros He. revert Ht1'. unfold export_target.
      destruct (concat_operand _); [|done]. rewrite Hs1, He.
      unfold Pathlib.with_suffix. by repeat case_match. }
  intros Hf Hkey. split; [by rewrite Hpar1, Hpar2, Hkey|].
  split.
  - intros ->. rewrite Hn1, Hkey, Hs1, Hs2, Hf in Hn2.
    apply app_inv_head in Hn2. injection Hn2 as Hn2.
    by apply String.app_inj, String.app_inj in Hn2.
  - intros ->. destruct p1 as [rt1 ns1], p2 as [rt2 ns2]. simpl in *.
    f_equal; [congruence|]. rewrite Hn1, Hn2, Hkey, Hs1, Hs2, Hf. done.
Qed.

Lemma export_path_by_key_and_format_witness :
  exists l1 l2 p1 p2 r1 r2,
    prepare example_builder {[ "format" := PStr "png" ]} "/docs/a.drawio" "svg" = Ok l1
    /\ prepare example_builder ∅ "/docs/a.drawio" "svg" = Ok l2
    /\ export_target example_builder l1 = Ok ("png", p1, r1)
    /\ export_target example_builder l2 = Ok ("svg", p2, r2)
    /\ parent p1 = export_dir_of (srcdir example_builder) (sha_key (values l1))
    /\ Pathlib.name p1
       = Pathlib.stem (Path (Pathlib.stem (Path "/docs/a.drawio"))) +:+ "." +:+ "png"
    /\ (Pathlib.suffix (Path (Pathlib.stem (Path "/docs/a.drawio"))) = "" ->
        Pathlib.name p1 = Pathlib.stem (Path "/docs/a.drawio") +:+ "." +:+ "png")
    /\ (Path "/docs/a.drawio" = Path "/docs/a.drawio" ->
        sha_key (values l1) = sha_key (values l2) ->
        parent p1 = parent p2 /\ (p1 = p2 <-> "png" = "svg")).
Proof.
  eexists _, _, _, _, _, _.
  split; [reflexivity|]. split; [reflexivity|].
  split; [vm_compute; reflexivity|]. split; [vm_compute; reflexivity|].
  eapply (export_path_by_key_and_format example_builder
            {[ "format" := PStr "png" ]} ∅ "/docs/a.drawio" "/docs/a.drawio"
            "svg" "svg").
  - reflexivity.
  - reflexivity.
  - vm_compute. reflexivity.
  - vm_compute. reflexivity.
Defined.

(** A stem with a suffix of its own loses it: [a.b.drawio] is exported as
    [a.png]. *)
Example export_name_of_dotted_stem :
  (fun r => match r with (Ok p, _) => Pathlib.name p | _ => "" end)
    (drawio_export example_builder ∅ "/docs/a.b.drawio" "png" example_world)
  = "a.png".
Proof. vm_compute. reflexivity. Qed.

(** C8 as stated fails: the same source asked for as png and then as svg
    gets one cache key, and after the two exports the directory of that key
    holds two export files. *)
Lemma one_key_directory_two_exports :
  let run1 := drawio_export example_builder {[ "format" := PStr "png" ]}
                            "/docs/a.drawio" "svg" example_world in
  let run2 := drawio_export example_builder {[ "format" := PStr "svg" ]}
                            "/docs/a.drawio" "svg" run1.2 in
  exists p1 p2,
    run1.1 = Ok p1 /\ run2.1 = Ok p2
    /\ cache_key example_builder {[ "format" := PStr "png" ]} "/docs/a.drawio" "svg"
       = cache_key example_builder {[ "format" := PStr "svg" ]} "/docs/a.drawio" "svg"
    /\ parent p1 = parent p2
    /\ p1 <> p2
    /\ is_Some (files run2.2 !! p1)
    /\ is_Some (files run2.2 !! p2).
Proof.
  eexists _, _. split; [vm_compute; reflexivity|]. split; [vm_compute; reflexivity|].
  split; [vm_compute; reflexivity|]. split; [vm_compute; reflexivity|].
  split; [vm_compute; discriminate|].
  split; vm_compute; eauto.
Qed.

(** * Further properties of the code *)

(** ** What an export touches *)

Lemma render_frame cfg options l fmt export_path export_relpath in_filename w :
  let w' := (render cfg options l fmt export_path export_relpath in_filename w).2 in
  system w' = system w /\ environ w' = environ w /\ xvfb_pid w' = xvfb_pid w
  /\ started w' = started w /\ now w' = now w.
Proof.
  rewrite render_eq. cbv zeta.
  destruct (exec w _ _ _) as [exc|rc out err fs]; [done|].
  destruct (negb (rc =? 0)); [done|]. by destruct (bool_decide _).
Qed.

Lemma renderer_env_other cfg w k :
  k <> "DISPLAY" -> renderer_env_in cfg w !! k = environ w !! k.
Proof.
  intros Hk. unfold renderer_env_in. destruct (headless_decision cfg w); [|done].
  by rewrite lookup_insert_ne.
Qed.

(** X1: an export leaves the platform, the process environment, the record
    of the Xvfb process and the list of started processes as they were, and
    it calls the renderer at most once; the environment of that call is the
    ambient one except, at most, for [DISPLAY]. *)
Theorem drawio_export_frame builder options in_filename dflt w :
  let w' := (drawio_export builder options in_filename dflt w).2 in
  system w' = system w /\ environ w' = environ w /\ xvfb_pid w' = xvfb_pid w
  /\ started w' = started w
  /\ (spawned w' = spawned w
      \/ exists args env,
           spawned w' = (args, env) :: spawned w
           /\ forall k, k <> "DISPLAY" -> env !! k = environ w !! k).
Proof.
  rewrite drawio_export_eq.
  destruct (prepare _ _ _ _) as [l|e]; [|by auto 10]. cbv zeta.
  set (w1 := set_files _ w).
  assert (forall r,
    system (render (config builder) options l r.1.1 r.1.2 r.2 in_filename w1).2 = system w
    /\ environ (render (config builder) options l r.1.1 r.1.2 r.2 in_filename w1).2 = environ w
    /\ xvfb_pid (render (config builder) options l r.1.1 r.1.2 r.2 in_filename w1).2 = xvfb_pid w
    /\ started (render (config builder) options l r.1.1 r.1.2 r.2 in_filename w1).2 = started w
    /\ (spawned (render (config builder) options l r.1.1 r.1.2 r.2 in_filename w1).2 = spawned w
        \/ exists args env,
             spawned (render (config builder) options l r.1.1 r.1.2 r.2 in_filename w1).2
             = (args, env) :: spawned w
             /\ forall k, k <> "DISPLAY" -> env !! k = environ w !! k)) as Hrender.
  { intros r.
    destruct (render_frame (config builder) options l r.1.1 r.1.2 r.2 in_filename w1)
      as (-> & -> & -> & -> & _).
    rewrite render_spawned. repeat (split; [done|]).
    right. do 2 eexists. split; [done|]. intros k Hk.
    by rewrite (renderer_env_other _ _ _ Hk). }
  destruct (export_target _ _) as [[[fmt ep] rel]|e]; [|by auto 10].
  destruct (files w1 !! ep) as [art|]; [|apply (Hrender (fmt, ep, rel))].
  destruct (files w1 !! input_abspath l) as [src|]; [|by auto 10].
  destruct (st_mtime src <? st_mtime art); [by auto 10|apply (Hrender (fmt, ep, rel))].
Qed.

(** ** Cache hits *)

Lemma mkdirs_present t fs ds d :
  d ∈ ds -> is_Some (foldl (mkdir_if_missing t) fs ds !! d).
Proof.
  revert fs. induction ds as [|x ds IH]; intros fs Hd; [by apply elem_of_nil in Hd|].
  apply elem_of_cons in Hd as [->|Hd]; [|by apply IH]. simpl.
  assert (is_Some (mkdir_if_missing t fs x !! x)) as [st Hst].
  { unfold mkdir_if_missing. destruct (fs !! x) eqn:Hx; [by eexists|].
    rewrite lookup_insert_eq. by eexists. }
  exists st. by apply mkdirs_lookup_Some.
Qed.

Lemma mkdirs_noop t fs ds :
  (forall d, d ∈ ds -> is_Some (fs !! d)) -> foldl (mkdir_if_missing t) fs ds = fs.
Proof.
  induction ds as [|x ds IH]; intros Hall; [done|]. simpl.
  assert (mkdir_if_missing t fs x = fs) as ->.
  { unfold mkdir_if_missing. destruct (Hall x) as [st ->]; [by left|done]. }
  apply IH. intros d Hd. apply Hall. by right.
Qed.

Lemma set_files_same w : set_files (files w) w = w.
Proof. by destruct w. Qed.

(** What a cache hit does, spelled out. *)
Lemma drawio_export_hit builder options in_filename dflt w l fmt export_path
    export_relpath src art :
  prepare builder options in_filename dflt = Ok l ->
  export_target builder l = Ok (fmt, export_path, export_relpath) ->
  files w !! Path in_filename = Some src ->
  files w !! export_path = Some art ->
  st_mtime src < st_mtime art ->
  drawio_export builder options in_filename dflt w
  = (Ok export_path,
     set_files (foldl (mkdir_if_missing (now w)) (files w)
                  (ancestors (export_dir_of (srcdir builder) (sha_key (values l))))) w).
Proof.
  intros Hp Ht Hsrc Hart Hlt.
  destruct (prepare_values _ _ _ _ _ Hp) as (_ & _ & _ & _ & _ & Habs & Hstem & _).
  rewrite drawio_export_eq, Hp. cbv zeta. rewrite Ht. cbn [files set_files].
  rewrite (mkdirs_lookup_Some _ _ _ _ _ Hart).
  rewrite Habs, (mkdirs_lookup_Some _ _ _ _ _ Hsrc).
  by apply Z.ltb_lt in Hlt as ->.
Qed.

(** X2: a cache hit creates the cache directories that are missing and does
    nothing else: every file or directory keeps its entry, nothing is logged
    and no process is run; a second identical request then leaves the world
    exactly as it is. *)
Theorem cache_hit_changes_nothing builder options in_filename dflt w l fmt
    export_path export_relpath src art :
  prepare builder options in_filename dflt = Ok l ->
  export_target builder l = Ok (fmt, export_path, export_relpath) ->
  files w !! Path in_filename = Some src ->
  files w !! export_path = Some art ->
  st_mtime src < st_mtime art ->
  let w' := (drawio_export builder options in_filename dflt w).2 in
  (forall q st, files w !! q = Some st -> files w' !! q = Some st)
  /\ (forall q, files w !! q = None -> is_Some (files w' !! q) ->
        q ∈ ancestors (export_dir_of (srcdir builder) (sha_key (values l))))
  /\ spawned w' = spawned w /\ log w' = log w
  /\ drawio_export builder options in_filename dflt w' = (Ok export_path, w').
Proof.
  intros Hp Ht Hsrc Hart Hlt.
  rewrite (drawio_export_hit _ _ _ _ _ _ _ _ _ _ _ Hp Ht Hsrc Hart Hlt).
  cbn [snd files set_files spawned log]. split; [|split; [|split; [done|split; [done|]]]].
  - intros q st Hq. by apply mkdirs_lookup_Some.
  - intros q Hnone [st Hst].
    destruct (decide (q ∈ ancestors (export_dir_of (srcdir builder) (sha_key (values l)))))
      as [|Hnot]; [done|].
    rewrite (mkdirs_lookup_other _ _ _ _ Hnot) in Hst. congruence.
  - set (fs1 := foldl _ _ _). set (w1 := set_files fs1 w).
    rewrite (drawio_export_hit _ _ _ _ w1 _ _ _ _ src art Hp Ht); try done.
    + f_equal. cbn [files set_files w1 now].
      rewrite mkdirs_noop; [apply (set_files_same w1)|].
      intros d Hd. by apply mkdirs_present.
    + by apply mkdirs_lookup_Some.
    + by apply mkdirs_lookup_Some.
Qed.

Lemma cache_hit_changes_nothing_witness :
  exists l export_path,
    prepare example_builder ∅ "/docs/a.drawio" "svg" = Ok l
    /\ let w' := (drawio_export example_builder ∅ "/docs/a.drawio" "svg" cached_world).2 in
       (forall q st, files cached_world !! q = Some st -> files w' !! q = Some st)
       /\ (forall q, files cached_world !! q = None -> is_Some (files w' !! q) ->
             q ∈ ancestors (export_dir_of (srcdir example_builder) (sha_key (values l))))
       /\ spawned w' = spawned cached_world /\ log w' = log cached_world
       /\ drawio_export example_builder ∅ "/docs/a.drawio" "svg" w' = (Ok export_path, w').
Proof.
  eexists _, _. split; [reflexivity|].
  eapply (cache_hit_changes_nothing example_builder ∅ "/docs/a.drawio" "svg" cached_world).
  - reflexivity.
  - vm_compute. reflexivity.
  - vm_compute. reflexivity.
  - vm_compute. reflexivity.
  - vm_compute. reflexivity.
Defined.

(** An export that returns, returns the export path of its request. *)
Lemma drawio_export_Ok_inv builder options in_filename dflt w p w' :
  drawio_export builder options in_filename dflt w = (Ok p, w') ->
  exists l fmt export_relpath,
    prepare builder options in_filename dflt = Ok l
    /\ export_target builder l = Ok (fmt, p, export_relpath).
Proof.
  rewrite drawio_export_eq.
  destruct (prepare _ _ _ _) as [l|e]; [|done]. cbv zeta.
  destruct (export_target _ _) as [[[fmt ep] rel]|e] eqn:Ht; [|done].
  assert (forall w1, (render (config builder) options l fmt ep rel in_filename w1).1 = Ok p ->
                     p = ep) as Hrender.
  { intros w1. rewrite render_eq. cbv zeta.
    destruct (exec w1 _ _ _) as [exc|rc out err fs]; [done|].
    destruct (negb (rc =? 0)); [done|].
    destruct (bool_decide _); [|done]. by intros [= <-]. }
  intros H. assert (p = ep) as ->; [|by exists l, fmt, rel].
  destruct (files _ !! ep) as [art|].
  - destruct (files _ !! input_abspath l) as [src|]; [|done].
    destruct (st_mtime src <? st_mtime art).
    + by injection H as <- _.
    + eapply Hrender. by rewrite H.
  - eapply Hrender. by rewrite H.
Qed.

(** X3: once an export has returned a path, the same request is answered
    from the cache for as long as the source is there and the file at that
    path is newer than it: the same path comes back and the renderer is not
    called again. *)
Theorem export_then_cache_hit builder options in_filename dflt w p src art :
  let w' := (drawio_export builder options in_filename dflt w).2 in
  (drawio_export builder options in_filename dflt w).1 = Ok p ->
  files w' !! Path in_filename = Some src ->
  files w' !! p = Some art ->
  st_mtime src < st_mtime art ->
  (drawio_export builder options in_filename dflt w').1 = Ok p
  /\ spawned (drawio_export builder options in_filename dflt w').2 = spawned w'
  /\ log (drawio_export builder options in_filename dflt w').2 = log w'.
Proof.
  intros w' Hrun Hsrc Hart Hlt.
  assert (drawio_export builder options in_filename dflt w = (Ok p, w')) as Heq
    by (subst w'; destruct (drawio_export _ _ _ _ w); simpl in *; congruence).
  apply drawio_export_Ok_inv in Heq as (l & fmt & rel & Hp & Ht).
  by rewrite (drawio_export_hit _ _ _ _ w' _ _ _ _ _ _ Hp Ht Hsrc Hart Hlt).
Qed.

Lemma export_then_cache_hit_witness :
  let p := Path "/docs/.drawio/f819339468a4e0ea104455cd3755f227620b3de7/a.svg" in
  let w' := (drawio_export example_builder ∅ "/docs/a.drawio" "svg" example_world).2 in
  (drawio_export example_builder ∅ "/docs/a.drawio" "svg" w').1 = Ok p
  /\ spawned (drawio_export example_builder ∅ "/docs/a.drawio" "svg" w').2 = spawned w'
  /\ log (drawio_export example_builder ∅ "/docs/a.drawio" "svg" w').2 = log w'.
Proof.
  apply (export_then_cache_hit example_builder ∅ "/docs/a.drawio" "svg" example_world
           (Path "/docs/.drawio/f819339468a4e0ea104455cd3755f227620b3de7/a.svg")
           {| st_mtime := 10; st_isdir := false |}
           {| st_mtime := 30; st_isdir := false |}).
  - vm_compute. reflexivity.
  - vm_compute. reflexivity.
  - vm_compute. reflexivity.
  - vm_compute. reflexivity.
Defined.

(** ** Formats that cannot be a suffix *)

(** X4: a format that is empty or contains a slash is rejected by
    [with_suffix] with [ValueError]; by then the cache directory of the
    request has been created, but the renderer is never called. *)
Theorem bad_format_rejected_before_render builder options in_filename dflt w l fmt :
  prepare builder options in_filename dflt = Ok l ->
  output_format l = PStr fmt ->
  fmt = "" \/ Str.contains "/" fmt = true ->
  exists msg,
    drawio_export builder options in_filename dflt w
    = (Raise (ValueError msg),
       set_files (foldl (mkdir_if_missing (now w)) (files w)
                    (ancestors (export_dir_of (srcdir builder) (sha_key (values l))))) w)
    /\ spawned (drawio_export builder options in_filename dflt w).2 = spawned w
    /\ is_Some (files (drawio_export builder options in_filename dflt w).2
                !! export_dir_of (srcdir builder) (sha_key (values l))).
Proof.
  intros Hp Hfmt Hbad.
  assert (exists msg, export_target builder l = Raise (ValueError msg)) as [msg Ht].
  { unfold export_target. rewrite Hfmt. cbn [concat_operand].
    unfold Pathlib.with_suffix. rewrite app_cons, app_nil_l_str.
    destruct Hbad as [->|Hslash].
    - cbn [Str.contains]. rewrite decide_False by done. cbn [Str.contains].
      rewrite (bool_decide_eq_true_2 ("." = ".")) by done.
      rewrite orb_true_r. by eexists.
    - cbn [Str.contains]. rewrite decide_False by done. rewrite Hslash. by eexists. }
  exists msg. rewrite drawio_export_eq, Hp. cbv zeta. rewrite Ht.
  split; [done|]. split; [done|]. cbn [snd files set_files].
  apply mkdirs_present. unfold ancestors.
  apply list_elem_of_fmap.
  destruct (export_dir_shape (srcdir builder) (values l)) as [_ Hn].
  exists (List.length (Pathlib.names (export_dir_of (srcdir builder) (sha_key (values l))))).
  split.
  - rewrite firstn_all. by destruct (export_dir_of _ _).
  - apply elem_of_seq. rewrite Hn, length_app. simpl. lia.
Qed.

Lemma bad_format_rejected_before_render_witness :
  exists l msg,
    prepare example_builder ∅ "/docs/a.drawio" "" = Ok l
    /\ drawio_export example_builder ∅ "/docs/a.drawio" "" example_world
       = (Raise (ValueError msg),
          set_files (foldl (mkdir_if_missing (now example_world)) (files example_world)
                       (ancestors (export_dir_of (srcdir example_builder)
                                                 (sha_key (values l))))) example_world)
    /\ spawned (drawio_export example_builder ∅ "/docs/a.drawio" "" example_world).2
       = spawned example_world
    /\ is_Some (files (drawio_export example_builder ∅ "/docs/a.drawio" "" example_world).2
                !! export_dir_of (srcdir example_builder) (sha_key (values l))).
Proof.
  eexists. 
  assert (prepare example_builder ∅ "/docs/a.drawio" "" = Ok _) as Hp by reflexivity.
  destruct (bad_format_rejected_before_render example_builder ∅ "/docs/a.drawio" ""
              example_world _ "" Hp eq_refl (or_introl eq_refl)) as [msg H].
  exists msg. split; [exact Hp|exact H].
Defined.

(** ** Options the export does not read *)

Lemma prepare_agree builder o1 o2 in_filename dflt :
  Forall (fun k => o1 !! k = o2 !! k) export_options ->
  prepare builder o1 in_filename dflt = prepare builder o2 in_filename dflt
  /\ forall t, extra_args_of o1 t = extra_args_of o2 t.
Proof.
  intros H. unfold export_options in H.
  apply Forall_cons_1 in H as [Hpage H]. apply Forall_cons_1 in H as [Hfmt H].
  apply Forall_cons_1 in H as [Hscale H]. apply Forall_cons_1 in H as [Htr H].
  apply Forall_cons_1 in H as [Hh H]. apply Forall_cons_1 in H as [Hw _].
  split.
  - unfold prepare, unique_values, dict_get_or, dict_get.
    rewrite Hpage, Hfmt, Hscale, Htr. simpl. by rewrite Hh, Hw.
  - intros t. unfold extra_args_of. simpl. by rewrite Hh, Hw.
Qed.

(** X5: the export reads six options and no other: two option dicts that
    agree on those six names give the same cache key and the same run of
    [drawio_export] in every world, so the options of the image directive
    ([alt], [width], [align], ...) never change or invalidate an export. *)
Theorem unread_options_ignored builder o1 o2 in_filename dflt w :
  Forall (fun k => o1 !! k = o2 !! k) export_options ->
  cache_key builder o1 in_filename dflt = cache_key builder o2 in_filename dflt
  /\ drawio_export builder o1 in_filename dflt w
     = drawio_export builder o2 in_filename dflt w.
Proof.
  intros H. destruct (prepare_agree builder o1 o2 in_filename dflt H) as [Hp He].
  split; [unfold cache_key; by rewrite Hp|by apply drawio_export_ext].
Qed.

Lemma unread_options_ignored_witness :
  cache_key example_builder {[ "alt" := PStr "A diagram"; "page-index" := PInt 1 ]}
            "/docs/a.drawio" "svg"
  = cache_key example_builder {[ "page-index" := PInt 1 ]} "/docs/a.drawio" "svg"
  /\ drawio_export example_builder {[ "alt" := PStr "A diagram"; "page-index" := PInt 1 ]}
                   "/docs/a.drawio" "svg" example_world
     = drawio_export example_builder {[ "page-index" := PInt 1 ]}
                     "/docs/a.drawio" "svg" example_world.
Proof.
  apply (unread_options_ignored example_builder
           {[ "alt" := PStr "A diagram"; "page-index" := PInt 1 ]}
           {[ "page-index" := PInt 1 ]} "/docs/a.drawio" "svg" example_world).
  apply (bool_decide_unpack (Forall _ _)). vm_compute. exact I.
Defined.

(** ** The flags of the renderer command *)

Lemma letter_absent c x s : Str.contains c s = false -> Str.contains c x = true -> s <> x.
Proof. intros Hs Hx ->. congruence. Qed.

(** Which flags a command line holds: the five that are always there, and
    one for each condition of lines 176-189 and 206-208. *)
Lemma command_line_flag_iff builder options in_filename dflt sys l fmt export_path
    export_relpath x c :
  options_ok options ->
  prepare builder options in_filename dflt = Ok l ->
  export_target builder l = Ok (fmt, export_path, export_relpath) ->
  not_a_digit c -> c <> "-"%char -> c <> "."%char ->
  Str.contains c x = true -> Str.contains "/" x = false ->
  binary_path_of (config builder) sys <> x -> in_filename <> x -> fmt <> x ->
  x ∈ command_line (config builder) sys options l fmt export_path in_filename
  <-> x ∈ ["--export"; "--crop"; "--page-index"; "--format"; "--output"]
      \/ (x = "--scale" /\ ~ (fmt = "pdf" /\ scale_value l = 100))
      \/ (x = "--height" /\ is_Some (options !! "export-height"))
      \/ (x = "--width" /\ is_Some (options !! "export-width"))
      \/ (x = "--transparent" /\ truthy (transparent l) = true)
      \/ (x = "--no-sandbox" /\ drawio_no_sandbox (config builder) = true).
Proof.
  intros Hok Hp Ht Hc Hdash Hdot Hx Hslash Hbin Hin Hfmt.
  destruct (prepare_values _ _ _ _ _ Hp) as (_ & Hpage & _ & _ & _ & _ & Hstem & _).
  pose proof (export_path_has_slash _ _ _ _ _ _ Hstem Ht) as Hsl.
  destruct (page_index_text options Hok) as [n Hn].
  assert (x <> page_index l) as Hpg.
  { rewrite Hpage, Hn. simpl. apply not_eq_sym, (letter_absent c); [|done].
    by apply pretty_Z_contains. }
  assert (x <> Pathlib.path_str export_path) as Hep by (intros Heq; congruence).
  assert (x <> float_str (scale_value l)) as Hfl.
  { apply not_eq_sym, (letter_absent c); [|done]. by apply float_str_contains. }
  assert (forall k v, k = "export-width" \/ k = "export-height" ->
            options !! k = Some v -> x <> py_str v) as Hv.
  { intros k v Hk Hkv.
    destruct (options_ok_int options k v) as (m & -> & _); [done|tauto|done|].
    simpl. apply not_eq_sym, (letter_absent c); [|done]. by apply pretty_Z_contains. }
  apply not_eq_sym in Hbin, Hin, Hfmt.
  unfold command_line, drawio_args_of, scale_args_of, extra_args_of.
  cbn [flat_map OPTIONAL_UNIQUES].
  change ("--" +:+ "height") with "--height". change ("--" +:+ "width") with "--width".
  assert (bool_decide (fmt = "pdf") && (scale_value l =? 100) = true
          <-> fmt = "pdf" /\ scale_value l = 100) as Hscale.
  { rewrite andb_true_iff, bool_decide_eq_true, Z.eqb_eq. tauto. }
  assert (x ∈ (if bool_decide (fmt = "pdf") && (scale_value l =? 100) then []
               else ["--scale"; float_str (scale_value l)])
          <-> x = "--scale" /\ ~ (fmt = "pdf" /\ scale_value l = 100)) as Hsc.
  { destruct (bool_decide (fmt = "pdf") && (scale_value l =? 100));
      rewrite ?elem_of_cons, ?elem_of_nil; intuition congruence. }
  assert (x ∈ match options !! "export-height" with
              | Some value => ["--height"; py_str value]
              | None => []
              end
          <-> x = "--height" /\ is_Some (options !! "export-height")) as Hhe.
  { destruct (options !! "export-height") as [h|] eqn:Hh;
      [pose proof (Hv _ _ (or_intror eq_refl) Hh)|];
      rewrite ?elem_of_cons, ?elem_of_nil, ?is_Some_alt; intuition congruence. }
  assert (x ∈ match options !! "export-width" with
              | Some value => ["--width"; py_str value]
              | None => []
              end
          <-> x = "--width" /\ is_Some (options !! "export-width")) as Hwi.
  { destruct (options !! "export-width") as [wd|] eqn:Hw;
      [pose proof (Hv _ _ (or_introl eq_refl) Hw)|];
      rewrite ?elem_of_cons, ?elem_of_nil, ?is_Some_alt; intuition congruence. }
  assert (x ∈ (if truthy (transparent l) then ["--transparent"] else [])
          <-> x = "--transparent" /\ truthy (transparent l) = true) as Htr.
  { destruct (truthy (transparent l));
      rewrite ?elem_of_cons, ?elem_of_nil; intuition congruence. }
  assert (x ∈ (if drawio_no_sandbox (config builder) then ["--no-sandbox"] else [])
          <-> x = "--no-sandbox" /\ drawio_no_sandbox (config builder) = true) as Hns.
  { destruct (drawio_no_sandbox (config builder));
      rewrite ?elem_of_cons, ?elem_of_nil; intuition congruence. }
  rewrite !elem_of_app, Hsc, Hhe, Hwi, Htr, Hns, !elem_of_cons, !elem_of_nil.
  clear Hsc Hhe Hwi Htr Hns Hv Hscale. tauto.
Qed.

Lemma flag_is_not prefix x s :
  is_prefix prefix x = false -> is_prefix prefix s = true -> x <> s.
Proof. intros Hx Hs ->. congruence. Qed.

(** X6: which optional flags a renderer command holds.  For options as the
    directive's converters yield them, and a binary path, an input name and a
    format that do not themselves start with two dashes: [--transparent] is
    there exactly when the transparency option (or, without it, the builder's
    default) is true; [--height] and [--width] exactly when the option is
    given, and then they are followed by its value; [--no-sandbox] exactly
    when it is configured, and then it is the last argument; otherwise the
    last argument is the input file. *)
Theorem optional_flags_iff builder options in_filename dflt sys l fmt export_path
    export_relpath :
  options_ok options ->
  prepare builder options in_filename dflt = Ok l ->
  export_target builder l = Ok (fmt, export_path, export_relpath) ->
  Forall (fun x => is_prefix "--" x = false)
         [binary_path_of (config builder) sys; in_filename; fmt] ->
  let args := command_line (config builder) sys options l fmt export_path in_filename in
  ("--transparent" ∈ args
   <-> truthy (dict_get_or options "transparency"
                 (PBool (drawio_default_transparency (config builder)))) = true)
  /\ ("--height" ∈ args <-> is_Some (options !! "export-height"))
  /\ ("--width" ∈ args <-> is_Some (options !! "export-width"))
  /\ (forall v, options !! "export-height" = Some v ->
        exists a b, args = a ++ ["--height"; py_str v] ++ b)
  /\ (forall v, options !! "export-width" = Some v ->
        exists a b, args = a ++ ["--width"; py_str v] ++ b)
  /\ ("--no-sandbox" ∈ args <-> drawio_no_sandbox (config builder) = true)
  /\ last args = Some (if drawio_no_sandbox (config builder)
                       then "--no-sandbox" else in_filename).
Proof.
  intros Hok Hp Ht Hall args.
  apply Forall_cons_1 in Hall as [Hbin Hall]. apply Forall_cons_1 in Hall as [Hin Hall].
  apply Forall_inv in Hall as Hfmt.
  destruct (prepare_values _ _ _ _ _ Hp) as (_ & _ & _ & _ & Htransp & _).
  rewrite <- Htransp.
  assert (forall x c, is_prefix "--" x = true ->
            not_a_digit c -> c <> "-"%char -> c <> "."%char ->
            Str.contains c x = true -> Str.contains "/" x = false ->
            x ∈ args
            <-> x ∈ ["--export"; "--crop"; "--page-index"; "--format"; "--output"]
                \/ (x = "--scale" /\ ~ (fmt = "pdf" /\ scale_value l = 100))
                \/ (x = "--height" /\ is_Some (options !! "export-height"))
                \/ (x = "--width" /\ is_Some (options !! "export-width"))
                \/ (x = "--transparent" /\ truthy (transparent l) = true)
                \/ (x = "--no-sandbox" /\ drawio_no_sandbox (config builder) = true))
    as Hflag.
  { intros x c Hx Hc Hdash Hdot Hcx Hsl.
    apply (command_line_flag_iff builder options in_filename dflt sys l fmt export_path
             export_relpath x c); try done; by apply (flag_is_not "--"). }
  split; [|split; [|split; [|split; [|split; [|split]]]]].
  - rewrite (Hflag "--transparent" "t"%char) by done.
    rewrite !elem_of_cons, elem_of_nil. intuition congruence.
  - rewrite (Hflag "--height" "h"%char) by done.
    rewrite !elem_of_cons, elem_of_nil. intuition congruence.
  - rewrite (Hflag "--width" "w"%char) by done.
    rewrite !elem_of_cons, elem_of_nil. intuition congruence.
  - intros v Hv. subst args. unfold command_line, drawio_args_of, extra_args_of.
    cbn [flat_map OPTIONAL_UNIQUES]. rewrite Hv.
    change ("--" +:+ "height") with "--height".
    exists ([binary_path_of (config builder) sys; "--export"; "--crop"; "--page-index";
             page_index l] ++ scale_args_of fmt (scale_value l)).
    eexists. rewrite <- !app_assoc. reflexivity.
  - intros v Hv. subst args. unfold command_line, drawio_args_of, extra_args_of.
    cbn [flat_map OPTIONAL_UNIQUES]. rewrite Hv.
    change ("--" +:+ "width") with "--width".
    exists ([binary_path_of (config builder) sys; "--export"; "--crop"; "--page-index";
             page_index l] ++ scale_args_of fmt (scale_value l)
            ++ match options !! "export-height" with
               | Some value => ["--height"; py_str value]
               | None => []
               end).
    eexists. rewrite <- !app_assoc. reflexivity.
  - rewrite (Hflag "--no-sandbox" "n"%char) by done.
    rewrite !elem_of_cons, elem_of_nil. intuition congruence.
  - subst args. unfold command_line, drawio_args_of.
    rewrite !app_assoc.
    destruct (drawio_no_sandbox (config builder)).
    + by rewrite last_snoc.
    + rewrite app_nil_r.
      change ["--format"; fmt; "--output"; Pathlib.path_str export_path; in_filename]
        with (["--format"; fmt; "--output"; Pathlib.path_str export_path] ++ [in_filename]).
      by rewrite app_assoc, last_snoc.
Qed.

Lemma optional_flags_iff_witness :
  let options : gmap string pyval :=
    {[ "transparency" := PBool true; "export-width" := PInt 400 ]} in
  exists l export_path export_relpath,
    prepare example_builder options "/docs/a.drawio" "png" = Ok l
    /\ export_target example_builder l = Ok ("png", export_path, export_relpath)
    /\ let args := command_line (config example_builder) "Linux" options l "png"
                                export_path "/docs/a.drawio" in
       ("--transparent" ∈ args
        <-> truthy (dict_get_or options "transparency"
                      (PBool (drawio_default_transparency (config example_builder))))
            = true)
       /\ ("--height" ∈ args <-> is_Some (options !! "export-height"))
       /\ ("--width" ∈ args <-> is_Some (options !! "export-width"))
       /\ (forall v, options !! "export-height" = Some v ->
             exists a b, args = a ++ ["--height"; py_str v] ++ b)
       /\ (forall v, options !! "export-width" = Some v ->
             exists a b, args = a ++ ["--width"; py_str v] ++ b)
       /\ ("--no-sandbox" ∈ args <-> drawio_no_sandbox (config example_builder) = true)
       /\ last args = Some (if drawio_no_sandbox (config example_builder)
                            then "--no-sandbox" else "/docs/a.drawio").
Proof.
  intros options. eexists _, _, _. split; [reflexivity|]. split; [vm_compute; reflexivity|].
  eapply (optional_flags_iff example_builder options "/docs/a.drawio" "png" "Linux").
  - apply (bool_decide_unpack (options_ok _)). vm_compute. exact I.
  - reflexivity.
  - vm_compute. reflexivity.
  - apply (bool_decide_unpack (Forall _ _)). vm_compute. exact I.
Defined.

(** ** An explicit headless setting *)

(** X7: a [drawio_headless] other than ["auto"] is decided without looking at
    the platform or at [DISPLAY]: [True] always starts Xvfb and always hands
    the renderer [DISPLAY=:1], replacing a [DISPLAY] that is set; [False]
    (and any value that is no boolean, for which [is_headless] returns
    [None]) never starts it and hands the environment on as it is. *)
Theorem explicit_headless_overrides cfg w :
  drawio_headless cfg <> PStr "auto" ->
  let headless := match drawio_headless cfg with PBool b => b | _ => false end in
  headless_decision cfg w = headless
  /\ (is_headless cfg w).2 = w
  /\ renderer_env_in cfg w
     = (if headless then <["DISPLAY" := ":1"]> (environ w) else environ w)
  /\ started (on_config_inited cfg w).2
     = (if headless then ["Xvfb"; ":1"; "-screen"; "0"; "1280x768x16"] :: started w
        else started w).
Proof.
  intros Hauto headless.
  assert (headless_decision cfg w = headless) as Hd.
  { unfold headless_decision, is_headless. rewrite bool_decide_eq_false_2 by done.
    subst headless. by destruct (drawio_headless cfg). }
  split; [done|]. split.
  { unfold is_headless. rewrite bool_decide_eq_false_2 by done.
    by destruct (drawio_headless cfg). }
  split.
  - unfold renderer_env_in. rewrite Hd. by destruct headless.
  - rewrite on_config_inited_eq, Hd. destruct headless; [|done]. cbv zeta.
    destruct (popen w _) as [exc|pid [rc|] out err]; reflexivity.
Qed.

Lemma explicit_headless_overrides_witness :
  let cfg := {| drawio_default_export_scale := 100;
                drawio_default_transparency := false;
                drawio_binary_path := None;
                drawio_headless := PBool true;
                drawio_no_sandbox := false |} in
  headless_decision cfg cached_world = true
  /\ (is_headless cfg cached_world).2 = cached_world
  /\ renderer_env_in cfg cached_world = <["DISPLAY" := ":1"]> (environ cached_world)
  /\ started (on_config_inited cfg cached_world).2
     = ["Xvfb"; ":1"; "-screen"; "0"; "1280x768x16"] :: started cached_world.
Proof.
  intros cfg. apply (explicit_headless_overrides cfg cached_world). discriminate.
Defined.

(** ** Document trees *)

Lemma node_ind (P : node -> Prop) :
  (forall t c a cs, Forall P cs -> P (Element t c a cs)) -> forall n, P n.
Proof.
  intros H.
  exact (fix IH (n : node) : P n :=
           match n with
           | Element t c a cs =>
               H t c a cs
                 ((fix go (l : list node) : Forall P l :=
                     match l with
                     | [] => Forall_nil_2 P
                     | x :: r => Forall_cons_2 P x r (IH x) (go r)
                     end) cs)
           end).
Qed.

Lemma traverse_node_eq n : traverse_node n = n :: traverse (children_of n).
Proof. by destruct n. Qed.

Lemma traverse_cons n rest : traverse (n :: rest) = traverse_node n ++ traverse rest.
Proof. done. Qed.

Lemma traverse_app a b : traverse (a ++ b) = traverse a ++ traverse b.
Proof.
  induction a as [|x a IH]; [done|].
  by rewrite <- app_comm_cons, !traverse_cons, IH, app_assoc.
Qed.

Lemma elem_of_traverse n nodes :
  n ∈ traverse nodes <-> exists m, m ∈ nodes /\ n ∈ traverse_node m.
Proof.
  induction nodes as [|x nodes IH].
  - split; [by intros ?%elem_of_nil|by intros (m & ?%elem_of_nil & _)].
  - rewrite traverse_cons, elem_of_app, IH. split.
    + intros [H|(m & Hm & H)]; [exists x; split; [by left|done]|].
      exists m. split; [by right|done].
    + intros (m & Hm & H). apply elem_of_cons in Hm as [->|Hm]; [by left|].
      right. by exists m.
Qed.

Lemma within_inv n nodes :
  within n nodes <-> exists m, m ∈ nodes /\ (n = m \/ within n (children_of m)).
Proof.
  split.
  - intros H. inversion H as [? ? Hn|? m ? Hm Hc]; subst; [exists n|exists m]; auto.
  - intros (m & Hm & [->|H]); [by apply within_root|by eapply within_child].
Qed.

Lemma elem_of_traverse_node m n :
  n ∈ traverse_node m <-> n = m \/ within n (children_of m).
Proof.
  revert n. induction m as [t c a cs IH] using node_ind. intros n.
  rewrite traverse_node_eq, elem_of_cons. cbn [children_of].
  rewrite elem_of_traverse, within_inv.
  split; (intros [?|(x & Hx & H)]; [by left|right; exists x; split; [done|]]).
  - rewrite Forall_forall in IH. by apply IH.
  - rewrite Forall_forall in IH. by apply IH.
Qed.

(** X8: [traverse] yields the nodes of the forest it is given and no other:
    a node is yielded exactly when it is one of the roots or lies, at any
    depth, under one of them; each root is followed at once by what
    [traverse] yields for its children. *)
Theorem traverse_yields_the_forest nodes :
  (forall n, n ∈ traverse nodes <-> within n nodes)
  /\ (forall n rest, nodes = n :: rest ->
        traverse nodes = n :: traverse (children_of n) ++ traverse rest).
Proof.
  split.
  - intros n. rewrite elem_of_traverse, within_inv.
    split; intros (m & Hm & H); exists m; (split; [done|]); by apply elem_of_traverse_node.
  - intros n rest ->. by rewrite traverse_cons, traverse_node_eq.
Qed.

Lemma update_image_cons f x rest :
  update_image f (x :: rest)
  = match update_image_node f x with
    | Some x' => Some (x' :: rest)
    | None => match update_image f rest with
              | Some rest' => Some (x :: rest')
              | None => None
              end
    end.
Proof. done. Qed.

Lemma update_image_node_eq f n :
  update_image_node f n
  = if is_image n then Some (f n)
    else match n with
         | Element t c a cs =>
             match update_image f cs with
             | Some cs' => Some (Element t c a cs')
             | None => None
             end
         end.
Proof. by destruct n. Qed.

Section first_image.

Variable f : node -> node.
Hypothesis f_keeps_children : forall n, children_of (f n) = children_of n.

(** The walk over [old] stops at one image, no node before it is an image,
    and [new] shows that image changed by [f] and every other node as it
    was. *)
Let changed_at_first_image (old new : list node) : Prop :=
  exists before image after,
    old = before ++ image :: after
    /\ Forall (fun n => is_image n = false) before
    /\ is_image image = true
    /\ node_row <$> new
       = (node_row <$> before) ++ node_row (f image) :: (node_row <$> after).

Let node_case (m : node) : Prop :=
  match update_image_node f m with
  | None => Forall (fun n => is_image n = false) (traverse_node m)
  | Some m' => changed_at_first_image (traverse_node m) (traverse_node m')
  end.

Let forest_case (nodes : list node) : Prop :=
  match update_image f nodes with
  | None => Forall (fun n => is_image n = false) (traverse nodes)
  | Some nodes' =>
      List.length nodes' = List.length nodes
      /\ changed_at_first_image (traverse nodes) (traverse nodes')
  end.

Lemma update_image_forest nodes : Forall node_case nodes -> forest_case nodes.
Proof.
  unfold forest_case. induction 1 as [|x rest Hx _ IH]; [by constructor|].
  rewrite update_image_cons. unfold node_case in Hx.
  destruct (update_image_node f x) as [x'|].
  - split; [done|]. destruct Hx as (before & image & after & Hold & Hb & Hi & Hnew).
    exists before, image, (after ++ traverse rest).
    rewrite !traverse_cons, Hold, fmap_app, Hnew, fmap_app.
    by rewrite <- !app_assoc.
  - destruct (update_image f rest) as [rest'|].
    + destruct IH as [Hlen (before & image & after & Hold & Hb & Hi & Hnew)].
      split; [simpl; by rewrite Hlen|].
      exists (traverse_node x ++ before), image, after.
      rewrite !traverse_cons, Hold, !fmap_app, Hnew.
      split; [by rewrite <- app_assoc|]. split; [by apply Forall_app|].
      split; [done|]. by rewrite <- app_assoc.
    + rewrite traverse_cons. by apply Forall_app.
Qed.

Lemma update_image_node_case m : node_case m.
Proof.
  induction m as [t c a cs IH] using node_ind.
  apply update_image_forest in IH. unfold forest_case in IH. unfold node_case.
  rewrite update_image_node_eq.
  destruct (is_image (Element t c a cs)) eqn:Himg.
  - exists [], (Element t c a cs), (traverse cs).
    rewrite !traverse_node_eq, f_keeps_children. by repeat split.
  - destruct (update_image f cs) as [cs'|].
    + destruct IH as [Hlen (before & image & after & Hold & Hb & Hi & Hnew)].
      exists (Element t c a cs :: before), image, after.
      rewrite !traverse_node_eq. cbn [children_of]. rewrite Hold.
      split; [done|]. split; [by constructor|]. split; [done|].
      rewrite !fmap_cons, Hnew. unfold node_row at 1 3. cbn. by rewrite Hlen.
    + rewrite traverse_node_eq. by constructor.
Qed.

Lemma update_image_first nodes :
  match update_image f nodes with
  | None => Forall (fun n => is_image n = false) (traverse nodes)
  | Some nodes' =>
      exists before image after,
        traverse nodes = before ++ image :: after
        /\ Forall (fun n => is_image n = false) before
        /\ is_image image = true
        /\ node_row <$> traverse nodes'
           = (node_row <$> before) ++ node_row (f image) :: (node_row <$> after)
  end.
Proof.
  pose proof (update_image_forest nodes) as H. unfold forest_case in H.
  destruct (update_image f nodes) as [nodes'|].
  - apply H. apply Forall_forall. intros m _. apply update_image_node_case.
  - apply H. apply Forall_forall. intros m _. apply update_image_node_case.
Qed.

End first_image.

(** X9: lines 105-111 change the first image node of the walk and nothing
    else.  When [traverse] meets an image, the nodes come back with the same
    shape and the same tags, classes and attributes everywhere, except that
    the first image yielded has [drawio] appended to its classes and its
    [uri] set; when it meets none, no node is changed (and the code fails on
    the unset local [image]). *)
Theorem first_image_is_marked uri nodes :
  match update_image (mark_image uri) nodes with
  | None => Forall (fun n => is_image n = false) (traverse nodes)
  | Some nodes' =>
      exists before image after,
        traverse nodes = before ++ image :: after
        /\ Forall (fun n => is_image n = false) before
        /\ is_image image = true
        /\ node_row <$> traverse nodes'
           = (node_row <$> before)
             ++ (tagname_of image, classes_of image ++ ["drawio"],
                 <["uri" := uri]> (attributes_of image),
                 List.length (children_of image))
             :: (node_row <$> after)
  end.
Proof.
  pose proof (update_image_first (mark_image uri)) as H.
  specialize (H (fun n => match n with Element _ _ _ _ => eq_refl end) nodes).
  destruct (update_image (mark_image uri) nodes) as [nodes'|]; [|done].
  destruct H as (before & image & after & H1 & H2 & H3 & H4).
  exists before, image, after. repeat (split; [done|]).
  rewrite H4. by destruct image.
Qed.

(** ** The uri of the image *)

Lemma normpath_plain acc l :
  Forall (fun x => x <> "..") l -> foldl normpath_step acc l = acc ++ l.
Proof.
  revert acc. induction l as [|x l IH]; intros acc Hl; [by rewrite app_nil_r|].
  apply Forall_cons_1 in Hl as [Hx Hl]. simpl. unfold normpath_step at 2.
  rewrite bool_decide_eq_false_2 by done. rewrite IH by done.
  by rewrite <- app_assoc.
Qed.

Lemma normpath_up acc l :
  foldl normpath_step (acc ++ l) (replicate (List.length l) "..") = acc.
Proof.
  induction l as [|x l IH] using rev_ind; [by rewrite app_nil_r|].
  rewrite length_app, Nat.add_1_r. simpl. unfold normpath_step at 2.
  rewrite bool_decide_eq_true_2 by done.
  by rewrite app_assoc, removelast_last.
Qed.

Lemma Forall_removelast {A} (P : A -> Prop) l : Forall P l -> Forall P (removelast l).
Proof.
  induction 1 as [|x l Hx Hl IH]; [done|]. simpl.
  destruct l; [constructor|]. by constructor.
Qed.

Lemma normpath_keeps (P : string -> Prop) acc l :
  Forall P acc -> Forall P l -> Forall P (foldl normpath_step acc l).
Proof.
  revert acc. induction l as [|x l IH]; intros acc Hacc Hl; [done|].
  apply Forall_cons_1 in Hl as [Hx Hl]. simpl. apply IH; [|done].
  unfold normpath_step. destruct (bool_decide _).
  - by apply Forall_removelast.
  - apply Forall_app. split; [done|by constructor].
Qed.

Lemma normpath_no_parent acc l :
  Forall (fun x => x <> "..") acc -> Forall (fun x => x <> "..") (foldl normpath_step acc l).
Proof.
  revert acc. induction l as [|x l IH]; intros acc Hacc; [done|].
  simpl. apply IH. unfold normpath_step. destruct (bool_decide _) eqn:Hx.
  - by apply Forall_removelast.
  - apply Forall_app. split; [done|]. constructor; [|done].
    by apply bool_decide_eq_false in Hx.
Qed.

Lemma commonprefix_split a b :
  exists a' b', a = commonprefix a b ++ a' /\ b = commonprefix a b ++ b'.
Proof.
  revert b. induction a as [|x a IH]; intros [|y b]; simpl; [by eexists _, _..|].
  destruct (decide (x = y)) as [->|]; [|by eexists _, _].
  destruct (IH b) as (a' & b' & Ha & Hb). exists a', b'.
  simpl. by rewrite <- Ha, <- Hb.
Qed.

Lemma parse_root_no_slash a s : a <> "/"%char -> Pathlib.parse_root (String a s) = "".
Proof.
  intros Ha. unfold Pathlib.parse_root.
  destruct a as [[] [] [] [] [] [] [] []]; done.
Qed.

Lemma filter_all {A} (P : A -> Prop) `{forall x, Decision (P x)} l :
  Forall P l -> filter P l = l.
Proof.
  induction 1 as [|x l Hx Hl IH]; [done|].
  by rewrite filter_cons_True, IH.
Qed.

(** A text made of proper components joined by slashes is read back as
    those components. *)
Lemma Path_join x l :
  Forall (fun x => Str.contains "/" x = false /\ x <> "" /\ x <> ".") (x :: l) ->
  Path (Str.join "/" (x :: l)) = {| Pathlib.root := ""; Pathlib.names := x :: l |}.
Proof.
  intros Hall. unfold Path. f_equal.
  - apply Forall_cons_1 in Hall as [(Hx & Hne & _) _].
    destruct x as [|a x]; [done|].
    assert (a <> "/"%char) as Ha.
    { intros ->. by rewrite contains_cons_same in Hx. }
    destruct l as [|y l]; [by apply parse_root_no_slash|].
    change (Str.join "/" (String a x :: y :: l))
      with (String a x +:+ "/" +:+ Str.join "/" (y :: l)).
    rewrite app_cons. by apply parse_root_no_slash.
  - rewrite (split_join "/"%char).
    + apply filter_all. eapply Forall_impl; [exact Hall|]. by intros ? (_ & ? & ?).
    + eapply Forall_impl; [exact Hall|]. by intros ? (? & _).
Qed.

Lemma abspath_names_proper cwd p :
  proper cwd -> proper p ->
  Forall (fun x => Str.contains "/" x = false /\ x <> "" /\ x <> ".") (abspath_names cwd p)
  /\ Forall (fun x => x <> "..") (abspath_names cwd p).
Proof.
  intros Hc Hp. unfold abspath_names. split; [|by apply normpath_no_parent].
  apply normpath_keeps; [done|]. unfold Pathlib.joinpath.
  destruct (bool_decide _); [|done]. by apply Forall_app.
Qed.

(** What [pathlib] reads in the text [relpath] returns. *)
Lemma relpath_names cwd p start :
  proper cwd -> proper p -> proper start ->
  let start_list := abspath_names cwd start in
  let path_list := abspath_names cwd p in
  let i := List.length (commonprefix start_list path_list) in
  Path (relpath cwd p start)
  = {| Pathlib.root := "";
       Pathlib.names := replicate (List.length start_list - i) ".." ++ drop i path_list |}.
Proof.
  intros Hc Hp Hs start_list path_list i.
  destruct (abspath_names_proper cwd p Hc Hp) as [Hpp _].
  unfold relpath. fold start_list path_list i.
  set (rel := replicate (List.length start_list - i) ".." ++ drop i path_list).
  assert (Forall (fun x => Str.contains "/" x = false /\ x <> "" /\ x <> ".") rel) as Hrel.
  { apply Forall_app. split.
    - apply Forall_replicate. by repeat split.
    - by apply Forall_drop. }
  destruct rel as [|x l]; [done|]. by rewrite Path_join.
Qed.

Lemma relpath_resolves cwd p start :
  proper cwd -> proper p -> proper start ->
  resolve (abspath_names cwd start) (relpath cwd p start) = abspath_names cwd p.
Proof.
  intros Hc Hp Hs.
  destruct (abspath_names_proper cwd p Hc Hp) as [_ Hpn].
  destruct (abspath_names_proper cwd start Hc Hs) as [_ Hsn].
  unfold resolve. rewrite (relpath_names cwd p start Hc Hp Hs). cbv zeta.
  cbn [Pathlib.names].
  destruct (commonprefix_split (abspath_names cwd start) (abspath_names cwd p))
    as (s' & p' & Hs' & Hp').
  set (c := commonprefix (abspath_names cwd start) (abspath_names cwd p)) in *.
  assert (List.length (abspath_names cwd start) - List.length c = List.length s')%nat as ->.
  { rewrite Hs' at 1. rewrite length_app. lia. }
  assert (drop (List.length c) (abspath_names cwd p) = p') as ->.
  { rewrite Hp' at 1. by rewrite drop_app_length. }
  assert (Forall (fun x => x <> "..") p') as Hp'n.
  { rewrite Hp' in Hpn. by apply Forall_app in Hpn as [_ ?]. }
  rewrite !foldl_app. rewrite (normpath_plain [] _ Hsn). cbn [app].
  rewrite Hs' at 1. rewrite normpath_up, (normpath_plain c _ Hp'n).
  by rewrite <- Hp'.
Qed.

Lemma commonprefix_same a : commonprefix a a = a.
Proof. induction a as [|x a IH]; [done|]. simpl. by rewrite decide_True, IH. Qed.

(** The uri [os.path.relpath] computes leads back to the file.  For
    paths as [pathlib] holds them, the relative path from [start] to [p] is
    a relative path; read by somebody in the directory [start], it names the
    same file as [p] (joined to [start] and normalised, it has the
    components of [abspath(p)]); and it is [.] when both name the same
    place. *)
Theorem relpath_round_trip cwd p start :
  proper cwd -> proper p -> proper start ->
  resolve (abspath_names cwd start) (relpath cwd p start) = abspath_names cwd p
  /\ Pathlib.root (Path (relpath cwd p start)) = ""
  /\ (abspath_names cwd p = abspath_names cwd start -> relpath cwd p start = ".").
Proof.
  intros Hc Hp Hs. split; [by apply relpath_resolves|]. split.
  - by rewrite (relpath_names cwd p start Hc Hp Hs).
  - intros Heq. unfold relpath. rewrite Heq, commonprefix_same, Nat.sub_diag, drop_all.
    done.
Qed.

Lemma relpath_round_trip_witness :
  let cwd := Path "/work" in
  let p := Path "/docs/.drawio/f8/a.svg" in
  let start := Path "/docs/guide" in
  resolve (abspath_names cwd start) (relpath cwd p start) = abspath_names cwd p
  /\ Pathlib.root (Path (relpath cwd p start)) = ""
  /\ (abspath_names cwd p = abspath_names cwd start -> relpath cwd p start = ".").
Proof.
  apply (relpath_round_trip (Path "/work") (Path "/docs/.drawio/f8/a.svg")
           (Path "/docs/guide")).
  - apply (bool_decide_unpack (proper _)). vm_compute. exact I.
  - apply (bool_decide_unpack (proper _)). vm_compute. exact I.
  - apply (bool_decide_unpack (proper _)). vm_compute. exact I.
Defined.

Example relpath_to_cache :
  relpath (Path "/work") (Path "/docs/.drawio/f8/a.svg") (Path "/docs/guide")
  = "../.drawio/f8/a.svg"
  /\ relpath (Path "/docs") (Path "img/a.svg") (Path "img") = "a.svg"
  /\ relpath (Path "/docs") (Path "img") (Path "img") = ".".
Proof. split; [|split]; vm_compute; reflexivity. Qed.

(** ** The directive *)

Lemma set_world_same s : set_world (s_world s) s = s.
Proof. by destruct s. Qed.

(** What [run] does when the file is there. *)
Lemma run_found self s rel filename st :
  DrawIOBase.relfn2path self (DrawIOBase.argument self) = (rel, filename) ->
  files (s_world s) !! Path filename = Some st ->
  DrawIOBase.run self s
  = let mapped := DrawIOBase.drawio_builder_export_format self
                  !! DrawIOBase.builder_name self in
    let s1 := add_dependency rel s in
    let s2 := match mapped with
              | Some _ => s1
              | None =>
                  add_warning
                    ("No export format specified for builder '"
                     +:+ DrawIOBase.builder_name self
                     +:+ "' in 'drawio_builder_export_format'. Using '"
                     +:+ FALLBACK_EXPORT_FORMAT +:+ "' as a fall-back.") s1
              end in
    let r := drawio_export (DrawIOBase.builder self) (DrawIOBase.options self) filename
                           (default FALLBACK_EXPORT_FORMAT mapped) (s_world s) in
    match r.1 with
    | Raise e => (Failed (ExportError e), set_world r.2 s2)
    | Ok export_path =>
        match DrawIOBase.parent_run self with
        | Failed e => (Failed e, set_world r.2 s2)
        | Done nodes =>
            match update_image
                    (mark_image
                       (relpath (cwd s) export_path
                          (parent (Path (srcdir (DrawIOBase.builder self))
                                   // Path (DrawIOBase.docname self)))))
                    nodes with
            | Some nodes' => (Done nodes', set_world r.2 s2)
            | None =>
                (Failed (UnboundLocalError
                   "cannot access local variable 'image' where it is not associated with a value"),
                 set_world r.2 s2)
            end
        end
    end.
Proof.
  intros Hrel Hst. unfold DrawIOBase.run. rewrite Hrel.
  unfold s_bind at 1. unfold s_modify at 1.
  unfold s_bind at 1. unfold in_world at 1. unfold path_exists, gets.
  cbn [s_world add_dependency]. rewrite Hst.
  rewrite bool_decide_eq_true_2 by by eexists. cbn [negb].
  unfold DrawIOBase.export_format_of. cbv zeta.
  destruct (DrawIOBase.drawio_builder_export_format self !! DrawIOBase.builder_name self)
    as [fmt|]; unfold s_bind, s_ret, s_fail, s_modify, in_world;
    cbn [default s_world set_world add_warning add_dependency cwd];
    destruct (drawio_export _ _ _ _ _) as [[export_path|e] w']; cbn [fst snd]; try done;
    destruct (DrawIOBase.parent_run self) as [nodes|e]; try done;
    by destruct (update_image _ nodes).
Qed.

(** What [run] does when the file is missing. *)
Lemma run_missing self s rel filename :
  DrawIOBase.relfn2path self (DrawIOBase.argument self) = (rel, filename) ->
  files (s_world s) !! Path filename = None ->
  DrawIOBase.run self s
  = (Done [DrawIOBase.reporter_warning
             ("External draw.io file " +:+ filename +:+ " not found.")
             (DrawIOBase.lineno self)],
     add_dependency rel s).
Proof.
  intros Hrel Hst. unfold DrawIOBase.run. rewrite Hrel.
  unfold s_bind at 1. unfold s_modify at 1.
  unfold s_bind at 1. unfold in_world at 1. unfold path_exists, gets.
  cbn [s_world add_dependency]. rewrite Hst.
  rewrite bool_decide_eq_false_2 by by intros []. cbn [negb]. unfold s_ret.
  by destruct s.
Qed.

(** X10: a file that does not exist is reported, not raised: [run] returns
    one warning node that names the file and the directive's line, and it
    still notes the dependency, so that the document is rebuilt once the
    file appears.  Nothing is exported, no directory is created, no process
    is run and nothing is logged. *)
Theorem missing_file_is_a_warning self s rel filename :
  DrawIOBase.relfn2path self (DrawIOBase.argument self) = (rel, filename) ->
  files (s_world s) !! Path filename = None ->
  exists warning,
    (DrawIOBase.run self s).1 = Done [warning]
    /\ tagname_of warning = "system_message"
    /\ attributes_of warning !! "message"
       = Some ("External draw.io file " +:+ filename +:+ " not found.")
    /\ attributes_of warning !! "line" = Some (pretty (DrawIOBase.lineno self))
    /\ dependencies (DrawIOBase.run self s).2 = rel :: dependencies s
    /\ s_world (DrawIOBase.run self s).2 = s_world s
    /\ warnings (DrawIOBase.run self s).2 = warnings s.
Proof.
  intros Hrel Hst. rewrite (run_missing self s rel filename Hrel Hst).
  eexists. split; [reflexivity|]. split; [done|]. split; [done|]. split; [done|].
  by destruct s.
Qed.

Lemma prepare_raises builder options in_filename dflt e :
  prepare builder options in_filename dflt = Raise e ->
  (exists msg, e = TypeError msg) \/ (exists msg, e = ValueError msg).
Proof.
  unfold prepare.
  destruct (truediv_100 _) as [n|e'] eqn:Hdiv.
  - unfold Pathlib.relative_to. destruct (if decide _ then _ else _); [done|].
    intros [= <-]. right. by eexists.
  - intros [= <-]. left. unfold truediv_100 in Hdiv.
    destruct (dict_get_or _ _ _); try done; injection Hdiv as <-; by eexists.
Qed.

Lemma export_target_raises builder l e :
  export_target builder l = Raise e ->
  (exists msg, e = TypeError msg) \/ (exists msg, e = ValueError msg).
Proof.
  unfold export_target.
  destruct (concat_operand _) as [fmt|e'] eqn:Hc.
  - destruct (Pathlib.with_suffix _ _) as [q|e'] eqn:Hw.
    + unfold Pathlib.relative_to. destruct (if decide _ then _ else _); [done|].
      intros [= <-]. right. by eexists.
    + intros [= <-]. right. unfold Pathlib.with_suffix in Hw.
      repeat (destruct (_ : bool) in Hw; [injection Hw as <-; by eexists|]). done.
  - intros [= <-]. left. unfold concat_operand in Hc.
    destruct (output_format l); try done; injection Hc as <-; by eexists.
Qed.

Lemma render_raises cfg options l fmt export_path export_relpath in_filename w e :
  (render cfg options l fmt export_path export_relpath in_filename w).1 = Raise e ->
  exists msg, e = DrawIOError msg.
Proof.
  rewrite render_eq. cbv zeta.
  destruct (exec w _ _ _) as [exc|rc out err fs]; [intros [= <-]; by eexists|].
  destruct (negb (rc =? 0)); [intros [= <-]; by eexists|].
  destruct (bool_decide _); [done|intros [= <-]; by eexists].
Qed.

(** The export asks for the time of a source that is not there only when
    the source is not there. *)
Lemma drawio_export_file_not_found builder options in_filename dflt w msg :
  (drawio_export builder options in_filename dflt w).1 = Raise (FileNotFoundError msg) ->
  files w !! Path in_filename = None.
Proof.
  rewrite drawio_export_eq.
  destruct (prepare _ _ _ _) as [l|e] eqn:Hp.
  - destruct (prepare_values _ _ _ _ _ Hp) as (_ & _ & _ & _ & _ & Habs & _).
    cbv zeta. destruct (export_target _ _) as [[[fmt ep] rel]|e] eqn:Ht.
    + assert (forall w1, (render (config builder) options l fmt ep rel in_filename w1).1
                         = Raise (FileNotFoundError msg) -> False) as Hrender.
      { intros w1 H. by apply render_raises in H as [? ?]. }
      destruct (files _ !! ep) as [art|]; [|by intros ?%Hrender].
      rewrite Habs. cbn [files set_files].
      destruct (files w !! Path in_filename) as [src|] eqn:Hsrc; [|done].
      rewrite (mkdirs_lookup_Some _ _ _ _ _ Hsrc).
      destruct (_ <? _); [done|by intros ?%Hrender].
    + intros [= ->]. by apply export_target_raises in Ht as [[? ?]|[? ?]].
  - intros [= ->]. by apply prepare_raises in Hp as [[? ?]|[? ?]].
Qed.

(** X11: the directive cannot fail on a missing source file.  [run] checks
    that the file exists before it exports, and the export only adds
    directories, so the [stat] of the source in the cache test always finds
    it: a [FileNotFoundError] out of [run] can only be one that the parent
    directive ended with. *)
Theorem run_never_file_not_found self s :
  match (DrawIOBase.run self s).1 with
  | Failed (ExportError (FileNotFoundError msg)) =>
      DrawIOBase.parent_run self = Failed (ExportError (FileNotFoundError msg))
  | _ => True
  end.
Proof.
  destruct (DrawIOBase.relfn2path self (DrawIOBase.argument self)) as [rel filename] eqn:Hrel.
  destruct (files (s_world s) !! Path filename) as [st|] eqn:Hst.
  - rewrite (run_found self s rel filename st Hrel Hst). cbv zeta.
    destruct (drawio_export _ _ _ _ _).1 as [export_path|e] eqn:Hexp.
    + destruct (DrawIOBase.parent_run self) as [nodes|[[]| | |]]; try done.
      by destruct (update_image _ nodes).
    + destruct e; try done. cbn [fst].
      apply drawio_export_file_not_found in Hexp. congruence.
  - by rewrite (run_missing self s rel filename Hrel Hst).
Qed.

Lemma missing_file_is_a_warning_witness :
  exists warning,
    (DrawIOBase.run missing_directive (example_session example_world)).1 = Done [warning]
    /\ tagname_of warning = "system_message"
    /\ attributes_of warning !! "message"
       = Some ("External draw.io file " +:+ "/docs/missing.drawio" +:+ " not found.")
    /\ attributes_of warning !! "line" = Some (pretty (DrawIOBase.lineno missing_directive))
    /\ dependencies (DrawIOBase.run missing_directive (example_session example_world)).2
       = "missing.drawio" :: dependencies (example_session example_world)
    /\ s_world (DrawIOBase.run missing_directive (example_session example_world)).2
       = s_world (example_session example_world)
    /\ warnings (DrawIOBase.run missing_directive (example_session example_world)).2
       = warnings (example_session example_world).
Proof.
  apply (missing_file_is_a_warning missing_directive (example_session example_world)
           "missing.drawio" "/docs/missing.drawio").
  - reflexivity.
  - vm_compute. reflexivity.
Defined.

(** X12: how [run] picks the format and when it exports.  When the file is
    there, exactly the effects of one [drawio_export] happen, with the
    builder's entry of [drawio_builder_export_format] as the default format
    or, without an entry, with [png]; a missing entry logs one warning,
    whether or not the directive's own [format] option then overrides the
    fall-back.  The format of the export is the directive's [format] option
    when it has one and that default otherwise; an exception of the export
    ends [run] before the parent directive is asked for nodes. *)
Theorem run_export_format self s rel filename st :
  DrawIOBase.relfn2path self (DrawIOBase.argument self) = (rel, filename) ->
  files (s_world s) !! Path filename = Some st ->
  let mapped := DrawIOBase.drawio_builder_export_format self
                !! DrawIOBase.builder_name self in
  let dflt := default "png" mapped in
  let export := drawio_export (DrawIOBase.builder self) (DrawIOBase.options self)
                              filename dflt (s_world s) in
  s_world (DrawIOBase.run self s).2 = export.2
  /\ warnings (DrawIOBase.run self s).2
     = match mapped with
       | Some _ => warnings s
       | None =>
           ("No export format specified for builder '" +:+ DrawIOBase.builder_name self
            +:+ "' in 'drawio_builder_export_format'. Using 'png' as a fall-back.")
           :: warnings s
       end
  /\ dependencies (DrawIOBase.run self s).2 = rel :: dependencies s
  /\ (forall e, export.1 = Raise e -> (DrawIOBase.run self s).1 = Failed (ExportError e))
  /\ (forall l fmt export_path export_relpath,
        prepare (DrawIOBase.builder self) (DrawIOBase.options self) filename dflt = Ok l ->
        export_target (DrawIOBase.builder self) l = Ok (fmt, export_path, export_relpath) ->
        PStr fmt = match DrawIOBase.options self !! "format" with
                   | Some v => if truthy v then v else PStr dflt
                   | None => PStr dflt
                   end).
Proof.
  intros Hrel Hst mapped dflt export.
  rewrite (run_found self s rel filename st Hrel Hst). cbv zeta.
  fold mapped. change (default FALLBACK_EXPORT_FORMAT mapped) with dflt. fold export.
  assert (forall o : outcome (list node),
            let s2 := match mapped with
                      | Some _ => add_dependency rel s
                      | None =>
                          add_warning
                            ("No export format specified for builder '"
                             +:+ DrawIOBase.builder_name self
                             +:+ "' in 'drawio_builder_export_format'. Using '"
                             +:+ FALLBACK_EXPORT_FORMAT +:+ "' as a fall-back.")
                            (add_dependency rel s)
                      end in
            s_world (o, set_world export.2 s2).2 = export.2
            /\ warnings (o, set_world export.2 s2).2
               = match mapped with
                 | Some _ => warnings s
                 | None =>
                     ("No export format specified for builder '"
                      +:+ DrawIOBase.builder_name self
                      +:+ "' in 'drawio_builder_export_format'. Using 'png' as a fall-back.")
                     :: warnings s
                 end
            /\ dependencies (o, set_world export.2 s2).2 = rel :: dependencies s) as Hstate.
  { intros o. by destruct mapped. }
  cbv zeta in Hstate.
  split; [|split; [|split; [|split]]].
  - destruct export.1 as [export_path|e]; [|apply Hstate].
    destruct (DrawIOBase.parent_run self) as [nodes|e]; [|apply Hstate].
    destruct (update_image _ nodes); apply Hstate.
  - destruct export.1 as [export_path|e]; [|apply Hstate].
    destruct (DrawIOBase.parent_run self) as [nodes|e]; [|apply Hstate].
    destruct (update_image _ nodes); apply Hstate.
  - destruct export.1 as [export_path|e]; [|apply Hstate].
    destruct (DrawIOBase.parent_run self) as [nodes|e]; [|apply Hstate].
    destruct (update_image _ nodes); apply Hstate.
  - intros e He. by rewrite He.
  - intros l fmt export_path export_relpath Hp Ht.
    destruct (prepare_values _ _ _ _ _ Hp) as (_ & _ & _ & _ & _ & _ & Hstem & Hfmt).
    apply (export_target_Ok _ _ _ _ _ _ Hstem) in Ht as (Hout & _).
    rewrite <- Hout, Hfmt. unfold py_or, dict_get.
    by destruct (DrawIOBase.options self !! "format").
Qed.

Lemma run_export_format_witness :
  let self := unmapped_directive in
  let s := example_session example_world in
  let dflt := "png" in
  let export := drawio_export (DrawIOBase.builder self) (DrawIOBase.options self)
                              "/docs/a.drawio" dflt (s_world s) in
  s_world (DrawIOBase.run self s).2 = export.2
  /\ warnings (DrawIOBase.run self s).2
     = ("No export format specified for builder '" +:+ DrawIOBase.builder_name self
        +:+ "' in 'drawio_builder_export_format'. Using 'png' as a fall-back.")
       :: warnings s
  /\ dependencies (DrawIOBase.run self s).2 = "a.drawio" :: dependencies s
  /\ (forall e, export.1 = Raise e -> (DrawIOBase.run self s).1 = Failed (ExportError e))
  /\ (forall l fmt export_path export_relpath,
        prepare (DrawIOBase.builder self) (DrawIOBase.options self) "/docs/a.drawio" dflt
        = Ok l ->
        export_target (DrawIOBase.builder self) l = Ok (fmt, export_path, export_relpath) ->
        PStr fmt = PStr "svg").
Proof.
  intros self s dflt export.
  apply (run_export_format unmapped_directive (example_session example_world)
           "a.drawio" "/docs/a.drawio" {| st_mtime := 10; st_isdir := false |}).
  - reflexivity.
  - vm_compute. reflexivity.
Defined.

Lemma Path_proper s : proper (Path s).
Proof.
  unfold proper. apply Forall_forall. intros x Hx.
  pose proof (Path_names_slash_free s) as H1. pose proof (Path_names_proper s) as H2.
  rewrite Forall_forall in H1, H2. split; [by apply H1|by apply H2].
Qed.

Lemma joinpath_proper p q : proper p -> proper q -> proper (p // q).
Proof.
  intros Hp Hq. unfold Pathlib.joinpath. destruct (bool_decide _); [|done].
  by apply Forall_app.
Qed.

Lemma parent_proper p : proper p -> proper (parent p).
Proof. apply Forall_removelast. Qed.

Lemma export_target_format builder l fmt export_path export_relpath :
  export_target builder l = Ok (fmt, export_path, export_relpath) ->
  Str.contains "/" fmt = false /\ fmt <> "".
Proof.
  unfold export_target. destruct (concat_operand _) as [fmt'|]; [|done].
  destruct (Pathlib.with_suffix _ _) as [q|] eqn:Hw; [|done].
  destruct (Pathlib.relative_to _ _); [|done]. intros [= -> _ _].
  unfold Pathlib.with_suffix in Hw. rewrite app_cons, app_nil_l_str in Hw.
  cbn [Str.contains] in Hw. rewrite decide_False in Hw by done.
  destruct (Str.contains "/" fmt); [done|]. split; [done|]. intros ->.
  by rewrite (bool_decide_eq_true_2 ("." = ".")), orb_true_r in Hw.
Qed.

(** The path an export returns is one [pathlib] could hold. *)
Lemma export_path_proper builder options in_filename dflt w p :
  (drawio_export builder options in_filename dflt w).1 = Ok p -> proper p.
Proof.
  intros Hrun.
  assert (drawio_export builder options in_filename dflt w
          = (Ok p, (drawio_export builder options in_filename dflt w).2)) as Heq
    by (destruct (drawio_export _ _ _ _ w); simpl in *; congruence).
  apply drawio_export_Ok_inv in Heq as (l & fmt & rel & Hp & Ht).
  destruct (prepare_values _ _ _ _ _ Hp) as (_ & _ & _ & _ & _ & _ & Hstem & _).
  destruct (export_target_format _ _ _ _ _ Ht) as [Hslash Hne].
  apply (export_target_Ok _ _ _ _ _ _ Hstem) in Ht as (_ & _ & Hn & _).
  unfold proper. rewrite Hn. apply Forall_app. split.
  - apply joinpath_proper; [apply joinpath_proper|]; apply Path_proper.
  - constructor; [|done]. split; [|split].
    + rewrite !contains_app, stem_slash_free, Hslash. done.
    + destruct (Pathlib.stem _); [|done]. by rewrite app_nil_l_str.
    + destruct (Pathlib.stem _) as [|a [|b t]].
      * rewrite app_nil_l_str, app_cons, app_nil_l_str. intros [= ?]. done.
      * rewrite !app_cons. done.
      * rewrite !app_cons. done.
Qed.

Lemma update_image_None f nodes :
  (forall n, children_of (f n) = children_of n) ->
  Forall (fun n => is_image n = false) (traverse nodes) -> update_image f nodes = None.
Proof.
  intros Hf Hall. pose proof (update_image_first f Hf nodes) as H.
  destruct (update_image f nodes) as [nodes'|]; [|done].
  destruct H as (before & image & after & Ht & _ & Hi & _).
  rewrite Ht in Hall. apply Forall_app in Hall as [_ Hall].
  apply Forall_cons_1 in Hall as [Hall _]. congruence.
Qed.

(** X13: the image the directive returns points at the export.  When [run]
    returns nodes for a file that is there, the export has returned a path,
    and among the nodes there is an image with the class [drawio] whose
    [uri], read from the directory of the document, names that path. *)
Theorem image_uri_leads_to_export self s rel filename st nodes' :
  DrawIOBase.relfn2path self (DrawIOBase.argument self) = (rel, filename) ->
  files (s_world s) !! Path filename = Some st ->
  proper (cwd s) ->
  (DrawIOBase.run self s).1 = Done nodes' ->
  exists export_path image uri,
    (drawio_export (DrawIOBase.builder self) (DrawIOBase.options self) filename
       (default "png" (DrawIOBase.drawio_builder_export_format self
                       !! DrawIOBase.builder_name self)) (s_world s)).1
    = Ok export_path
    /\ image ∈ traverse nodes'
    /\ is_image image = true
    /\ "drawio" ∈ classes_of image
    /\ attributes_of image !! "uri" = Some uri
    /\ resolve (abspath_names (cwd s)
                  (parent (Path (srcdir (DrawIOBase.builder self))
                           // Path (DrawIOBase.docname self))))
               uri
       = abspath_names (cwd s) export_path.
Proof.
  intros Hrel Hst Hcwd. rewrite (run_found self s rel filename st Hrel Hst). cbv zeta.
  change FALLBACK_EXPORT_FORMAT with "png".
  destruct (drawio_export _ _ _ _ _).1 as [export_path|e] eqn:Hexp; [|done].
  destruct (DrawIOBase.parent_run self) as [nodes|e]; [|done].
  set (uri := relpath _ _ _).
  pose proof (update_image_first (mark_image uri)
                (fun n => match n with Element _ _ _ _ => eq_refl end) nodes) as Hfirst.
  destruct (update_image (mark_image uri) nodes) as [marked|]; [|done].
  intros [= <-]. destruct Hfirst as (before & image & after & _ & _ & Hi & Hrows).
  assert (node_row (mark_image uri image) ∈ node_row <$> traverse marked) as Hin.
  { rewrite Hrows. apply elem_of_app. right. by left. }
  apply list_elem_of_fmap in Hin as (image' & Hrow & Hin).
  exists export_path, image', uri. split; [done|]. split; [done|].
  destruct image as [t c a cs], image' as [t' c' a' cs'].
  unfold node_row in Hrow. cbn in Hrow. injection Hrow as <- <- <- _.
  split; [done|]. split; [apply elem_of_app; right; by left|].
  split; [cbn; by rewrite lookup_insert_eq|].
  subst uri. apply relpath_resolves; [done| |].
  - by eapply export_path_proper.
  - apply parent_proper, joinpath_proper; apply Path_proper.
Qed.

Lemma image_uri_leads_to_export_witness :
  let self := example_directive in
  let s := example_session example_world in
  exists nodes',
    (DrawIOBase.run self s).1 = Done nodes'
    /\ exists export_path image uri,
         (drawio_export (DrawIOBase.builder self) (DrawIOBase.options self)
            "/docs/a.drawio"
            (default "png" (DrawIOBase.drawio_builder_export_format self
                            !! DrawIOBase.builder_name self)) (s_world s)).1
         = Ok export_path
         /\ image ∈ traverse nodes'
         /\ is_image image = true
         /\ "drawio" ∈ classes_of image
         /\ attributes_of image !! "uri" = Some uri
         /\ resolve (abspath_names (cwd s)
                       (parent (Path (srcdir (DrawIOBase.builder self))
                                // Path (DrawIOBase.docname self))))
                    uri
            = abspath_names (cwd s) export_path.
Proof.
  intros self s. eexists. split; [vm_compute; reflexivity|].
  eapply (image_uri_leads_to_export example_directive (example_session example_world)
            "a.drawio" "/docs/a.drawio" {| st_mtime := 10; st_isdir := false |}).
  - reflexivity.
  - vm_compute. reflexivity.
  - apply (bool_decide_unpack (proper _)). vm_compute. exact I.
  - vm_compute. reflexivity.
Defined.

Example run_marks_the_image :
  (DrawIOBase.run example_directive (example_session example_world)).1
  = Done [Element "figure" [] ∅
            [Element "image" ["drawio"]
               {[ "uri" := ".drawio/f819339468a4e0ea104455cd3755f227620b3de7/a.svg" ]} [];
             Element "caption" [] ∅ []]].
Proof. vm_compute. reflexivity. Qed.

(** X14: when the nodes of the parent directive hold no image, [run] ends
    with Python's error for the local [image] that was never set; the export
    has been made by then and its effects stay. *)
Theorem run_without_image self s rel filename st export_path nodes :
  DrawIOBase.relfn2path self (DrawIOBase.argument self) = (rel, filename) ->
  files (s_world s) !! Path filename = Some st ->
  (drawio_export (DrawIOBase.builder self) (DrawIOBase.options self) filename
     (default "png" (DrawIOBase.drawio_builder_export_format self
                     !! DrawIOBase.builder_name self)) (s_world s)).1
  = Ok export_path ->
  DrawIOBase.parent_run self = Done nodes ->
  Forall (fun n => is_image n = false) (traverse nodes) ->
  (DrawIOBase.run self s).1
  = Failed (UnboundLocalError
      "cannot access local variable 'image' where it is not associated with a value")
  /\ s_world (DrawIOBase.run self s).2
     = (drawio_export (DrawIOBase.builder self) (DrawIOBase.options self) filename
          (default "png" (DrawIOBase.drawio_builder_export_format self
                          !! DrawIOBase.builder_name self)) (s_world s)).2.
Proof.
  intros Hrel Hst Hexp Hparent Hnone.
  rewrite (run_found self s rel filename st Hrel Hst). cbv zeta.
  change FALLBACK_EXPORT_FORMAT with "png". rewrite Hexp, Hparent.
  rewrite update_image_None; [done| |done]. by intros [].
Qed.

Lemma run_without_image_witness :
  let self := imageless_directive in
  let s := example_session example_world in
  (DrawIOBase.run self s).1
  = Failed (UnboundLocalError
      "cannot access local variable 'image' where it is not associated with a value")
  /\ s_world (DrawIOBase.run self s).2
     = (drawio_export (DrawIOBase.builder self) (DrawIOBase.options self) "/docs/a.drawio"
          (default "png" (DrawIOBase.drawio_builder_export_format self
                          !! DrawIOBase.builder_name self)) (s_world s)).2.
Proof.
  apply (run_without_image imageless_directive (example_session example_world)
           "a.drawio" "/docs/a.drawio" {| st_mtime := 10; st_isdir := false |}
           (Path "/docs/.drawio/f819339468a4e0ea104455cd3755f227620b3de7/a.svg")
           [Element "paragraph" [] ∅ [Element "#text" [] ∅ []]]).
  - reflexivity.
  - vm_compute. reflexivity.
  - vm_compute. reflexivity.
  - reflexivity.
  - apply (bool_decide_unpack (Forall _ _)). vm_compute. exact I.
Defined.

(** ** The end of the build *)

Lemma on_build_finished_eq cfg this_file_path outdir exc s :
  on_build_finished cfg this_file_path outdir exc s
  = let s1 := match exc with
              | None => add_copied (os_path_join this_file_path "drawio.css",
                                    os_path_join outdir "_static") s
              | Some _ => s
              end in
    if headless_decision cfg (s_world s) then
      match xvfb_pid (s_world s) with
      | Some pid => (Done tt, add_waited pid (add_signal (pid, SIGTERM) s1))
      | None => (Failed (AttributeError "No such config value: xvfb_pid"), s1)
      end
    else (Done tt, s1).
Proof.
  unfold on_build_finished, headless_decision.
  destruct (is_headless_reads cfg (s_world s)) as (v & Hv & _).
  destruct s as [w c d wn cp sg wt].
  destruct exc as [e|];
    unfold s_bind, s_ret, s_modify, in_world; cbn [s_world add_copied set_world];
    cbn [s_world] in Hv; rewrite Hv;
    (destruct (truthy v); cbn; [destruct (xvfb_pid w) eqn:Hpid; cbn; rewrite ?Hpid|]);
    reflexivity.
Qed.

(** X15: what the build-finished hook does.  The style sheet is copied to
    [_static] of the output directory exactly when the build ended without an
    exception.  After that, and also after a failed build, a headless run
    sends SIGTERM to the recorded Xvfb process and waits for that same
    process; without a recorded process the hook fails on the missing
    attribute, after the copy and without sending a signal.  A run that is
    not headless sends nothing.  The world of the exports is not touched. *)
Theorem on_build_finished_effects cfg this_file_path outdir exc s :
  let r := on_build_finished cfg this_file_path outdir exc s in
  copied r.2
  = match exc with
    | None => (os_path_join this_file_path "drawio.css", os_path_join outdir "_static")
              :: copied s
    | Some _ => copied s
    end
  /\ s_world r.2 = s_world s
  /\ (if headless_decision cfg (s_world s) then
        match xvfb_pid (s_world s) with
        | Some pid =>
            r.1 = Done tt /\ signals r.2 = (pid, 15) :: signals s
            /\ waited r.2 = pid :: waited s
        | None =>
            (exists msg, r.1 = Failed (AttributeError msg))
            /\ signals r.2 = signals s /\ waited r.2 = waited s
        end
      else r.1 = Done tt /\ signals r.2 = signals s /\ waited r.2 = waited s).
Proof.
  cbv zeta. rewrite on_build_finished_eq. cbv zeta.
  destruct (headless_decision cfg (s_world s)).
  - destruct (xvfb_pid (s_world s)) as [pid|]; destruct exc; cbn; eauto 10.
  - destruct exc; cbn; eauto.
Qed.






(** ** The transparency option *)

(** X17: the text of a [transparency] option reaches the cache key as it
    was written.  [boolean_spec] accepts the two lowercase words and nothing
    else; the boolean it returns is a value the export accepts; and once it
    is stored under [transparency], the fourth piece of the key text is the
    word the user wrote. *)
Theorem transparency_text_round_trip builder options in_filename dflt l arg b :
  boolean_spec arg = Ok b ->
  options !! "transparency" = Some (PBool b) ->
  prepare builder options in_filename dflt = Ok l ->
  exists word,
    arg = PStr word
    /\ (word = "true" \/ word = "false")
    /\ option_value_ok "transparency" (PBool b) = true
    /\ values l !! 3%nat = Some word
    /\ boolean_spec (PStr word) = Ok (truthy (transparent l)).
Proof.
  intros Hspec Hopt Hp.
  destruct (prepare_values _ _ _ _ _ Hp) as (Hv & _ & _ & _ & Htr & _).
  unfold dict_get_or in Htr. rewrite Hopt in Htr. cbn [default] in Htr.
  rewrite Hv, unique_values_eq, Htr. cbn [truthy lookup list_lookup].
  unfold boolean_spec in Hspec.
  destruct (decide (arg = PStr "true")) as [->|Ht].
  - rewrite bool_decide_eq_true_2 in Hspec by done. injection Hspec as <-.
    exists "true". by auto.
  - rewrite bool_decide_eq_false_2 in Hspec by done.
    destruct (decide (arg = PStr "false")) as [->|Hf].
    + rewrite bool_decide_eq_true_2 in Hspec by done. injection Hspec as <-.
      exists "false". by auto.
    + by rewrite bool_decide_eq_false_2 in Hspec by done.
Qed.

Lemma transparency_text_round_trip_witness :
  exists l word,
    prepare example_builder {[ "transparency" := PBool true ]} "/docs/a.drawio" "svg" = Ok l
    /\ PStr "true" = PStr word
    /\ (word = "true" \/ word = "false")
    /\ option_value_ok "transparency" (PBool true) = true
    /\ values l !! 3%nat = Some word
    /\ boolean_spec (PStr word) = Ok (truthy (transparent l)).
Proof.
  eexists.
  assert (prepare example_builder {[ "transparency" := PBool true ]} "/docs/a.drawio" "svg"
          = Ok _) as Hp by reflexivity.
  assert (({[ "transparency" := PBool true ]} : gmap string pyval) !! "transparency"
          = Some (PBool true)) as Hopt by (vm_compute; reflexivity).
  assert (boolean_spec (PStr "true") = Ok true) as Hspec by (vm_compute; reflexivity).
  destruct (transparency_text_round_trip example_builder {[ "transparency" := PBool true ]}
              "/docs/a.drawio" "svg" _ (PStr "true") true Hspec Hopt Hp)
    as [word H].
  exists word. split; [exact Hp|exact H].
Defined.

(** ** What an export leaves behind *)

Lemma render_outcome cfg options l fmt export_path export_relpath in_filename w :
  let r := render cfg options l fmt export_path export_relpath in_filename w in
  match r.1 with
  | Ok p =>
      p = export_path /\ is_Some (files r.2 !! p)
      /\ exists call line, spawned r.2 = call :: spawned w /\ log r.2 = line :: log w
  | Raise e => log r.2 = log w
  end.
Proof.
  cbv zeta. rewrite render_eq. cbv zeta.
  destruct (exec w _ _ _) as [exc|rc out err fs]; [done|].
  destruct (negb (rc =? 0)); [done|].
  destruct (bool_decide _) eqn:Hthere; [|done].
  apply bool_decide_eq_true in Hthere. cbn. eauto 10.
Qed.

(** X18: what a caller can rely on after [drawio_export].  A path that is
    returned names a file that exists when the call returns, and it lies
    under the source directory; either the call was a cache hit, which runs
    nothing and logs nothing, or the renderer ran once and one line was
    logged.  A call that raises logs nothing. *)
Theorem export_outcome builder options in_filename dflt w :
  let r := drawio_export builder options in_filename dflt w in
  match r.1 with
  | Ok p =>
      is_Some (files r.2 !! p)
      /\ (exists rel, Pathlib.relative_to p (Path (srcdir builder)) = Ok rel)
      /\ ((spawned r.2 = spawned w /\ log r.2 = log w)
          \/ (exists call line,
                spawned r.2 = call :: spawned w /\ log r.2 = line :: log w))
  | Raise e => log r.2 = log w
  end.
Proof.
  cbv zeta. rewrite drawio_export_eq.
  destruct (prepare _ _ _ _) as [l|e]; [|done]. cbv zeta.
  set (w1 := set_files _ w).
  destruct (export_target _ _) as [[[fmt ep] rel]|e] eqn:Ht; [|done].
  assert (exists rel', Pathlib.relative_to ep (Path (srcdir builder)) = Ok rel') as Hrel.
  { unfold export_target in Ht.
    destruct (concat_operand _); [|done]. destruct (Pathlib.with_suffix _ _); [|done].
    destruct (Pathlib.relative_to _ _) as [rel'|] eqn:Hr; [|done].
    injection Ht as _ <- _. by eexists. }
  pose proof (render_outcome (config builder) options l fmt ep rel in_filename w1) as Hrender.
  cbv zeta in Hrender.
  assert (match (render (config builder) options l fmt ep rel in_filename w1).1 with
          | Ok p =>
              is_Some (files (render (config builder) options l fmt ep rel in_filename w1).2
                       !! p)
              /\ (exists rel', Pathlib.relative_to p (Path (srcdir builder)) = Ok rel')
              /\ ((spawned (render (config builder) options l fmt ep rel in_filename w1).2
                   = spawned w
                   /\ log (render (config builder) options l fmt ep rel in_filename w1).2
                      = log w)
                  \/ (exists call line,
                        spawned (render (config builder) options l fmt ep rel in_filename w1).2
                        = call :: spawned w
                        /\ log (render (config builder) options l fmt ep rel in_filename w1).2
                           = line :: log w))
          | Raise _ =>
              log (render (config builder) options l fmt ep rel in_filename w1).2 = log w
          end) as Hmiss.
  { destruct (render _ _ _ _ _ _ _ w1).1 as [p|e]; [|done].
    destruct Hrender as (-> & Hp & Hlog). split; [done|]. split; [done|]. by right. }
  destruct (files w1 !! ep) as [art|] eqn:Hart; [|done].
  destruct (files w1 !! input_abspath l) as [src|]; [|done].
  destruct (st_mtime src <? st_mtime art); [|done].
  cbn [fst snd]. rewrite Hart. split; [by eexists|]. split; [done|]. by left.
Qed.
